(** * Procedural tree generator: [tree_generator.js]

    A shallow embedding of the standalone generator module
    ([estimateMaxInstances], [collectBranchDataRecursive] and
    [generateTreeMatrices]) and the properties of the instance budget, of
    the termination rules and of leaf emission; then the generation and
    the save functions of the editor ([Editor]) and the display functions
    of the two loaders ([ParamLoader], [TreeLoader]), with the trees that
    pass from one to the other.

    Conventions of the embedding.
    - The fields [maxDepth] and [numBranches] are integers (the sliders
      have step 1): they are values of [Z].  The other numeric fields,
      lengths, radii and random draws are exact rationals ([Q]); rounding,
      infinities and NaN of IEEE doubles are outside the model.
    - A field of the configuration object that is absent ([undefined] or
      [null]) is [None].
    - [Math.random] reads a stream of draws [rng : nat -> Q]; the number of
      draws made so far is part of the state.
    - Values of the three.js library are represented by the calls that
      construct them ([Matrix4], [Quaternion], [Euler], [Vector3]).
    - The two output arrays are lists; [push] appends at the end.  Every
      pushed matrix is tagged with the arguments [level], [length] and
      [radius] of the call that pushed it; [em_matrix] erases the tag.
    - [collectBranchDataRecursive] takes a bound [fuel] on the depth of
      nested calls; [None] means that the bound was too small. *)

From Stdlib Require Import ZArith QArith Qround Qpower Lqa List Bool Lia String.
Import ListNotations.

Local Open Scope Z_scope.

(** ** JavaScript operators on optional fields *)

(** [x ?? d]: the default is taken when the field is absent. *)
Definition nullish {A : Type} (x : option A) (d : A) : A :=
  match x with
  | Some v => v
  | None => d
  end.

(** [x || d] on an integer field: the default is taken when the field is
    absent and also when it is [0], which is falsy. *)
Definition falsy_or (x : option Z) (d : Z) : Z :=
  match x with
  | Some 0 => d
  | Some v => v
  | None => d
  end.

Notation "x ?? d" := (nullish x d) (at level 45, left associativity).
Notation "x |?| d" := (falsy_or x d) (at level 45, left associativity).

(** ** Data model *)

Record Config : Type := mkConfig {
  maxDepth : option Z;
  numBranches : option Z;
  initialLength : option Q;
  initialRadius : option Q;
  lengthFactor : option Q;
  radiusFactor : option Q;
  minRadius : option Q;
  branchAngle : option Q;
  angleVariance : option Q;
  lengthVariance : option Q;
  leafSize : option Q
}.

(** The configuration object [{}]. *)
Definition empty_config : Config :=
  mkConfig None None None None None None None None None None None.

Module THREE.

Inductive Vector3 : Type :=
| mkVector3 (x y z : Q).

Inductive Euler : Type :=
| mkEuler (x y z : Q).

Inductive Quaternion : Type :=
| newQuaternion
| setFromEuler (e : Euler)
| setFromAxisAngle (axis : Vector3) (angle : Q)
| multiplyQuaternions (a b : Quaternion).

Inductive Matrix4 : Type :=
| newMatrix4
| makeScale (x y z : Q)
| makeTranslation (x y z : Q)
| makeRotationFromQuaternion (q : Quaternion)
| multiplyMatrices (a b : Matrix4).

(** [m.multiply(n)] is [m.multiplyMatrices(m, n)]. *)
Definition multiply (m n : Matrix4) : Matrix4 := multiplyMatrices m n.

(** [Math.PI], the double 3.141592653589793, as a fraction. *)
Definition Math_PI : Q := 884279719003555 # 281474976710656.

Definition DEG2RAD : Q := Math_PI / 180.

Definition degToRad (degrees : Q) : Q := degrees * DEG2RAD.

End THREE.

Import THREE.

(** A pushed matrix with the arguments of the call that pushed it. *)
Record Emitted : Type := mkEmitted {
  em_level : Z;
  em_length : Q;
  em_radius : Q;
  em_matrix : Matrix4
}.

(** The mutable state shared by all calls of one generation. *)
Record World : Type := mkWorld {
  branchMatricesArray : list Emitted;
  leafMatricesArray : list Emitted;
  draws : nat
}.

Definition array_length {A : Type} (a : list A) : Z := Z.of_nat (List.length a).

Definition push_branch (e : Emitted) (w : World) : World :=
  mkWorld (branchMatricesArray w ++ [e]) (leafMatricesArray w) (draws w).

Definition push_leaf (e : Emitted) (w : World) : World :=
  mkWorld (branchMatricesArray w) (leafMatricesArray w ++ [e]) (draws w).

(** [Math.random()]: the next draw of the stream. *)
Definition Math_random (rng : nat -> Q) (w : World) : Q * World :=
  (rng (draws w),
   mkWorld (branchMatricesArray w) (leafMatricesArray w) (S (draws w))).

Definition Math_max (a b : Q) : Q := if Qle_bool a b then b else a.

Definition Qlt_bool (a b : Q) : bool := negb (Qle_bool b a).

(** ** estimateMaxInstances *)

(** [for (let i = i0; ...; i++) s = body(i, s)], [n] iterations. *)
Fixpoint for_upto {S : Type} (n : nat) (i : Z) (body : Z -> S -> S) (s : S) : S :=
  match n with
  | O => s
  | S n' => for_upto n' (i + 1) body (body i s)
  end.

Definition default_estimateFactor : Q := 3 # 2.

Definition estimateMaxInstances (config : Config) (estimateFactor : Q) : Z :=
  let depth := maxDepth config |?| 5 in
  let branches := numBranches config |?| 2 in
  (* for (let i = 0; i <= depth; i++) count += Math.pow(branches, i) *)
  let count :=
    for_upto (Z.to_nat (depth + 1)) 0 (fun i count => count + branches ^ i) 0 in
  Qceiling (inject_Z count * estimateFactor * (3 # 2)).

(** ** collectBranchDataRecursive *)

(** Outcome of one iteration of a [for] loop whose body may [break]. *)
Inductive LoopStep (S : Type) : Type :=
| Break (s : S)
| Next (s : S).

Arguments Break {S} s.
Arguments Next {S} s.

(** [for (let i = i0; ...; i++) body], [n] iterations at most; [None] is
    a failure of the body, which ends the loop. *)
Fixpoint for_break {S : Type} (n : nat) (i : Z)
    (body : Z -> S -> option (LoopStep S)) (s : S) : option S :=
  match n with
  | O => Some s
  | S n' =>
      match body i s with
      | None => None
      | Some (Break s') => Some s'
      | Some (Next s') => for_break n' (i + 1) body s'
      end
  end.

Definition reachedLimit (estimatedMaxInstances : Z) (w : World) : bool :=
  (array_length (branchMatricesArray w) >=? estimatedMaxInstances)
  || (array_length (leafMatricesArray w) >=? estimatedMaxInstances - 1).

Definition isTerminal (config : Config) (level : Z) (length radius : Q) : bool :=
  let maxDepth := maxDepth config ?? 5 in
  let minRadius := minRadius config ?? (1 # 10) in
  (level >=? maxDepth) || Qle_bool length (1 # 100) || Qlt_bool radius minRadius.

(** [new THREE.Quaternion().setFromEuler(new THREE.Euler(Math.random() *
    Math.PI, Math.random() * Math.PI * 2, Math.random() * Math.PI))]: three
    draws, left to right. *)
Definition randomQuat (rng : nat -> Q) (w : World) : Quaternion * World :=
  let '(r1, w) := Math_random rng w in
  let '(r2, w) := Math_random rng w in
  let '(r3, w) := Math_random rng w in
  (setFromEuler (mkEuler (r1 * Math_PI) (r2 * Math_PI * 2) (r3 * Math_PI)), w)%Q.

(** The two leaves of a terminal segment: one at its base, one at its tip. *)
Definition addLeaves (rng : nat -> Q) (config : Config) (level : Z)
    (parentMatrix : Matrix4) (length radius : Q) (w : World) : World :=
  let leafSize := leafSize config ?? (1 # 2) in
  let scale := leafSize in
  let scaleMatrix := makeScale scale scale scale in
  (* Leaf at the base of this terminal segment *)
  let '(randomQuatBase, w) := randomQuat rng w in
  let rotationMatrixBase := makeRotationFromQuaternion randomQuatBase in
  let leafMatrixBase :=
    multiply (multiply (multiply newMatrix4 parentMatrix) rotationMatrixBase)
             scaleMatrix in
  let w := push_leaf (mkEmitted level length radius leafMatrixBase) w in
  (* Leaf at the tip of this terminal segment *)
  let endPointTranslation := makeTranslation 0%Q length 0%Q in
  let tipMatrix := multiplyMatrices parentMatrix endPointTranslation in
  let '(randomQuatTip, w) := randomQuat rng w in
  let rotationMatrixTip := makeRotationFromQuaternion randomQuatTip in
  let leafMatrixTip :=
    multiply (multiply (multiply newMatrix4 tipMatrix) rotationMatrixTip)
             scaleMatrix in
  push_leaf (mkEmitted level length radius leafMatrixTip) w.

(** The arguments of the recursive call for child [i]: three draws, then
    length, radius and base matrix of the child. *)
Definition childArguments (rng : nat -> Q) (config : Config)
    (childBaseMatrix : Matrix4) (baseNextLength baseNextRadius angleStep : Q)
    (i : Z) (w : World) : (Matrix4 * Q * Q) * World :=
  let branchAngle := branchAngle config ?? 30%Q in
  let angleVariance := angleVariance config ?? 10%Q in
  let lengthVariance := lengthVariance config ?? 10%Q in
  let '(r1, w) := Math_random rng w in
  let lenVarFactor := (1 + (r1 - (1 # 2)) * 2 * (lengthVariance / 100))%Q in
  let '(r2, w) := Math_random rng w in
  let angleVar := ((r2 - (1 # 2)) * 2 * angleVariance)%Q in
  let '(r3, w) := Math_random rng w in
  let spreadVar := ((r3 - (1 # 2)) * (angleStep * (4 # 10)))%Q in
  let nextLength := (baseNextLength * lenVarFactor)%Q in
  let nextRadius := baseNextRadius in
  let branchAngleDeg := (branchAngle + angleVar)%Q in
  let baseSpreadAngleDeg := (angleStep * inject_Z i)%Q in
  let spreadAngleDeg := (baseSpreadAngleDeg + spreadVar)%Q in
  let branchAngleRad := degToRad branchAngleDeg in
  let spreadAngleRad := degToRad spreadAngleDeg in
  let qSpread := setFromAxisAngle (mkVector3 0%Q 1%Q 0%Q) spreadAngleRad in
  let qBranch := setFromAxisAngle (mkVector3 1%Q 0%Q 0%Q) branchAngleRad in
  let orientationQuat := multiplyQuaternions qSpread qBranch in
  let rotationMatrix := makeRotationFromQuaternion orientationQuat in
  let nextParentMatrix := multiplyMatrices childBaseMatrix rotationMatrix in
  ((nextParentMatrix, nextLength, nextRadius), w).

(** The transform of a segment that is not terminal. *)
Definition branchMatrix (config : Config) (parentMatrix : Matrix4)
    (length radius : Q) : Matrix4 :=
  let minRadius := minRadius config ?? (1 # 10) in
  let actualRadius := Math_max radius minRadius in
  let scaleMatrixBranch := makeScale (actualRadius * 2)%Q length (actualRadius * 2)%Q in
  let translationMatrixBranch := makeTranslation 0%Q (length / 2)%Q 0%Q in
  let localMatrix := multiplyMatrices translationMatrixBranch scaleMatrixBranch in
  multiplyMatrices parentMatrix localMatrix.

Fixpoint collectBranchDataRecursive (rng : nat -> Q) (fuel : nat)
    (config : Config) (estimatedMaxInstances : Z) (level : Z)
    (parentMatrix : Matrix4) (length radius : Q) (w : World) : option World :=
  match fuel with
  | O => None
  | S fuel' =>
      let minRadius := minRadius config ?? (1 # 10) in
      let numBranches := numBranches config ?? 2 in
      let lengthFactor := lengthFactor config ?? (7 # 10) in
      let radiusFactor := radiusFactor config ?? (6 # 10) in
      (* Base case: stop recursion *)
      if isTerminal config level length radius
         || reachedLimit estimatedMaxInstances w then
        if isTerminal config level length radius && (level >? 0) then
          let canAddLeaves :=
            array_length (leafMatricesArray w) <? estimatedMaxInstances - 1 in
          if canAddLeaves
          then Some (addLeaves rng config level parentMatrix length radius w)
          else Some w
        else Some w
      else
        (* Calculate the branch matrix *)
        let actualRadius := Math_max radius minRadius in
        let worldMatrix := branchMatrix config parentMatrix length radius in
        let w := push_branch (mkEmitted level length radius worldMatrix) w in
        (* Parameters of the child branches *)
        let nextLevel := level + 1 in
        let baseNextLength := (length * lengthFactor)%Q in
        let baseNextRadius := (actualRadius * radiusFactor)%Q in
        let endPointTranslationChild := makeTranslation 0%Q length 0%Q in
        let childBaseMatrix :=
          multiplyMatrices parentMatrix endPointTranslationChild in
        let angleStep :=
          if numBranches >? 1 then (360 / inject_Z numBranches)%Q else 0%Q in
        (* for (let i = 0; i < numBranches; i++) *)
        for_break (Z.to_nat numBranches) 0
          (fun i w =>
             if reachedLimit estimatedMaxInstances w then Some (Break w)
             else
               let '((nextParentMatrix, nextLength, nextRadius), w) :=
                 childArguments rng config childBaseMatrix baseNextLength
                   baseNextRadius angleStep i w in
               match collectBranchDataRecursive rng fuel' config
                       estimatedMaxInstances nextLevel nextParentMatrix
                       nextLength nextRadius w with
               | Some w' => Some (Next w')
               | None => None
               end)
          w
  end.

(** ** generateTreeMatrices *)

Inductive ConsoleEvent : Type :=
| console_error (message : string)
| console_log_generated (branches leaves : Z).

Record TreeMatrices : Type := mkTreeMatrices {
  branchMatrices : list Emitted;
  leafMatrices : list Emitted
}.

(** The result and what was written to the console.  [config = None] is a
    call without argument or with [null]. *)
Definition generateTreeMatrices (rng : nat -> Q) (fuel : nat)
    (config : option Config) : option (TreeMatrices * list ConsoleEvent) :=
  match config with
  | None =>
      Some (mkTreeMatrices [] [],
            [console_error "generateTreeMatrices requires a configuration object."])
  | Some config =>
      let w := mkWorld [] [] 0 in
      let estimatedMax := estimateMaxInstances config default_estimateFactor in
      let initialLength := initialLength config ?? 10%Q in
      let initialRadius := initialRadius config ?? (initialLength / 15)%Q in
      let initialMatrix := newMatrix4 in
      match collectBranchDataRecursive rng fuel config estimatedMax 0
              initialMatrix initialLength initialRadius w with
      | None => None
      | Some w =>
          Some (mkTreeMatrices (branchMatricesArray w) (leafMatricesArray w),
                [console_log_generated (array_length (branchMatricesArray w))
                                       (array_length (leafMatricesArray w))])
      end
  end.

(** The depth-1 example of the specification. *)
Definition depth1_config : Config :=
  mkConfig (Some 1) (Some 2) (Some 10%Q) (Some (7 # 10)) (Some (7 # 10))
           (Some (6 # 10)) (Some (1 # 10)) (Some 30%Q) (Some 0%Q) (Some 0%Q) None.

(** A pinned random source: every draw is 0.5. *)
Definition pinned : nat -> Q := fun _ => 1 # 2.

(** ** The data model of the specification *)

(** [maxDepth] is an integer >= 0 and [numBranches] an integer >= 1,
    when they are present. *)
Definition well_formed (config : Config) : Prop :=
  (forall d, maxDepth config = Some d -> 0 <= d) /\
  (forall b, numBranches config = Some b -> 1 <= b).

(** The count of the specification: the sum of [branches ^ i] for
    [i = 0 .. depth]. *)
Definition geometric_count (branches depth : Z) : Z :=
  fold_right Z.add 0
    (map (fun i => branches ^ Z.of_nat i) (seq 0 (Z.to_nat (depth + 1)))).

(** The estimate of the specification: [ceil(count * 1.5 * 1.5)]. *)
Definition spec_estimate (branches depth : Z) : Z :=
  Qceiling (inject_Z (geometric_count branches depth) * (3 # 2) * (3 # 2)).

(** The depth of nested calls that a configuration needs: the call at
    level 0 and one call for each level up to [maxDepth]. *)
Definition depth_bound (config : Config) : nat :=
  S (Z.to_nat (maxDepth config ?? 5)).

(** The arguments of the recursive call for child [i] of a segment, from
    the arguments of the call for the segment. *)
Definition childOf (rng : nat -> Q) (config : Config) (parentMatrix : Matrix4)
    (length radius : Q) (i : Z) (w : World) : (Matrix4 * Q * Q) * World :=
  childArguments rng config
    (multiplyMatrices parentMatrix (makeTranslation 0%Q length 0%Q))
    (length * (lengthFactor config ?? (7 # 10)))%Q
    (Math_max radius (minRadius config ?? (1 # 10))
     * (radiusFactor config ?? (6 # 10)))%Q
    (if numBranches config ?? 2 >? 1
     then (360 / inject_Z (numBranches config ?? 2%Z))%Q else 0%Q)
    i w.

(** Both arrays are within the budget. *)
Definition within_budget (est : Z) (w : World) : Prop :=
  array_length (branchMatricesArray w) <= est /\
  array_length (leafMatricesArray w) <= est.

(** The configurations [{maxDepth: 0, numBranches: 2}] and
    [{maxDepth: 1, numBranches: 2}]. *)
Definition depth0_config : Config :=
  mkConfig (Some 0) (Some 2) None None None None None None None None None.

Definition depth1_two_branches : Config :=
  mkConfig (Some 1) (Some 2) None None None None None None None None None.

(** ** Shapes of the pushed matrices *)

(** Matrices composed from the identity, translations and rotations. *)
Inductive rigid : Matrix4 -> Prop :=
| rigid_identity : rigid newMatrix4
| rigid_translation (x y z : Q) : rigid (makeTranslation x y z)
| rigid_rotation (q : Quaternion) : rigid (makeRotationFromQuaternion q)
| rigid_multiply (a b : Matrix4) :
    rigid a -> rigid b -> rigid (multiplyMatrices a b).

(** The matrix of a leaf at [position]: a rotation by Euler angles, then
    the uniform scale [leafSize]. *)
Definition leafMatrixAt (config : Config) (position : Matrix4) (e : Euler) : Matrix4 :=
  multiply
    (multiply (multiply newMatrix4 position)
       (makeRotationFromQuaternion (setFromEuler e)))
    (makeScale (leafSize config ?? (1 # 2)) (leafSize config ?? (1 # 2))
       (leafSize config ?? (1 # 2))).

(** A leaf array made of pairs: the leaf at the base of a segment, then
    the leaf at its tip, pushed by the same call. *)
Inductive leaf_pairs (config : Config) : list Emitted -> Prop :=
| leaf_pairs_nil : leaf_pairs config []
| leaf_pairs_push (leaves : list Emitted) (level : Z) (parentMatrix : Matrix4)
    (length radius : Q) (eBase eTip : Euler) :
    leaf_pairs config leaves ->
    leaf_pairs config
      (leaves ++
       [mkEmitted level length radius
          (leafMatrixAt config parentMatrix eBase);
        mkEmitted level length radius
          (leafMatrixAt config
             (multiplyMatrices parentMatrix (makeTranslation 0%Q length 0%Q))
             eTip)]).

(** The matrix of a branch: a rigid matrix at the base of the segment,
    then the translation by half the length and the scale of the unit
    cylinder to the diameter and the length of the segment, both
    positive. *)
Definition branch_shape (config : Config) (branch : Emitted) : Prop :=
  let actualRadius :=
    Math_max (em_radius branch) (minRadius config ?? (1 # 10)) in
  (exists parentMatrix,
     rigid parentMatrix /\
     em_matrix branch =
     multiplyMatrices parentMatrix
       (multiplyMatrices
          (makeTranslation 0%Q (em_length branch / 2)%Q 0%Q)
          (makeScale (actualRadius * 2)%Q (em_length branch)
             (actualRadius * 2)%Q))) /\
  (actualRadius == em_radius branch)%Q /\
  (0 < actualRadius * 2)%Q /\
  (0 < em_length branch)%Q.

(** The radius of a segment at [level]: the initial radius, shrunk
    [level] times by [radiusFactor]. *)
Definition tapered (config : Config) (e : Emitted) : Prop :=
  0 <= em_level e /\
  (em_radius e ==
   (initialRadius config ?? ((initialLength config ?? 10%Q) / 15))
   * (radiusFactor config ?? (6 # 10)) ^ em_level e)%Q.

(** The length of a segment at [level] without variance: the initial
    length, shrunk [level] times by [lengthFactor]. *)
Definition shrunk (config : Config) (e : Emitted) : Prop :=
  (em_length e ==
   (initialLength config ?? 10%Q)
   * (lengthFactor config ?? (7 # 10)) ^ em_level e)%Q.

(** The matrix of a leaf whose rotation has Euler angles in
    [[0, pi) x [0, 2 pi) x [0, pi)]. *)
Definition leaf_rotation_in_range (config : Config) (leaf : Emitted) : Prop :=
  exists position x y z,
    em_matrix leaf = leafMatrixAt config position (mkEuler x y z) /\
    (0 <= x /\ x < Math_PI)%Q /\
    (0 <= y /\ y < Math_PI * 2)%Q /\
    (0 <= z /\ z < Math_PI)%Q.

(** The arrays of [w'] are the arrays of [w] with more matrices pushed. *)
Definition extends (w w' : World) : Prop :=
  exists bs ls,
    branchMatricesArray w' = branchMatricesArray w ++ bs /\
    leafMatricesArray w' = leafMatricesArray w ++ ls.

(** ** The editor: [script.js]

    The editor keeps its configuration, the budget and the two arrays in
    variables of the script; they are the fields of [State] here.  Every
    field of the configuration is present.  The scene, the meshes and the
    materials are left out, except the instance counts of the two meshes
    ([treeInstancedMesh.count] and [leafInstancedMesh.count]) and the
    colours that are saved. *)

Module Editor.

Record EditorConfig : Type := mkEditorConfig {
  maxDepth : Z;
  initialLength : Q;
  initialRadius : Q;
  lengthFactor : Q;
  branchAngle : Q;
  radiusFactor : Q;
  minRadius : Q;
  numBranches : Z;
  angleVariance : Q;
  lengthVariance : Q;
  taperFactor : Q;
  branchColor : string;   (* config.branchMaterial.color.getHexString() *)
  maxInstanceEstimateFactor : Q;
  leafSize : Q
}.

(** The generation parameters of the editor, as the configuration object
    that the functions of the generator module read: every field is
    present. *)
Definition parameters (config : EditorConfig) : Config :=
  mkConfig (Some (maxDepth config)) (Some (numBranches config))
    (Some (initialLength config)) (Some (initialRadius config))
    (Some (lengthFactor config)) (Some (radiusFactor config))
    (Some (minRadius config)) (Some (branchAngle config))
    (Some (angleVariance config)) (Some (lengthVariance config))
    (Some (leafSize config)).

(** [estimateMaxInstances()]: the value assigned to
    [estimatedMaxInstances]. *)
Definition estimateMaxInstances (config : EditorConfig) : Z :=
  (* for (let i = 0; i <= config.maxDepth; i++)
       count += Math.pow(config.numBranches, i) *)
  let count :=
    for_upto (Z.to_nat (maxDepth config + 1)) 0
      (fun i count => count + numBranches config ^ i) 0 in
  Qceiling (inject_Z count * maxInstanceEstimateFactor config * (3 # 2)).

(** [collectBranchData]: the recursion of the editor.  It reads the
    fields of [config] without defaults, and its loop over the children
    stops on the limit of the branches only.  The leaves and the arguments
    of the children are computed as in the generator module, on
    [parameters config], where no default applies since every field is
    present.  [saveFullTreeData] below first tests that the two arrays
    exist, which they always do. *)
Fixpoint collectBranchData (rng : nat -> Q) (fuel : nat)
    (config : EditorConfig) (estimatedMaxInstances : Z) (level : Z)
    (parentMatrix : Matrix4) (length radius : Q) (w : World) : option World :=
  match fuel with
  | O => None
  | S fuel' =>
      let isTerminal :=
        (level >=? maxDepth config) || Qle_bool length (1 # 100)
        || Qlt_bool radius (minRadius config) in
      let reachedLimit :=
        (array_length (branchMatricesArray w) >=? estimatedMaxInstances)
        || (array_length (leafMatricesArray w) >=? estimatedMaxInstances - 1) in
      if isTerminal || reachedLimit then
        if isTerminal && (level >? 0) then
          let canAddLeaves :=
            array_length (leafMatricesArray w) <? estimatedMaxInstances - 1 in
          if canAddLeaves
          then Some (addLeaves rng (parameters config) level parentMatrix
                       length radius w)
          else Some w
        else Some w
      else
        let actualRadius := Math_max radius (minRadius config) in
        let scaleMatrix :=
          makeScale (actualRadius * 2)%Q length (actualRadius * 2)%Q in
        let translationMatrix := makeTranslation 0%Q (length / 2)%Q 0%Q in
        let localMatrix := multiplyMatrices translationMatrix scaleMatrix in
        let worldMatrix := multiplyMatrices parentMatrix localMatrix in
        let w := push_branch (mkEmitted level length radius worldMatrix) w in
        let nextLevel := level + 1 in
        let baseNextLength := (length * lengthFactor config)%Q in
        let baseNextRadius := (actualRadius * radiusFactor config)%Q in
        let endPointTranslation := makeTranslation 0%Q length 0%Q in
        let childBaseMatrix :=
          multiplyMatrices parentMatrix endPointTranslation in
        let angleStep :=
          if numBranches config >? 1
          then (360 / inject_Z (numBranches config))%Q else 0%Q in
        for_break (Z.to_nat (numBranches config)) 0
          (fun i w =>
             if array_length (branchMatricesArray w) >=? estimatedMaxInstances
             then Some (Break w)
             else
               let '((nextParentMatrix, nextLength, nextRadius), w) :=
                 childArguments rng (parameters config) childBaseMatrix
                   baseNextLength baseNextRadius angleStep i w in
               match collectBranchData rng fuel' config estimatedMaxInstances
                       nextLevel nextParentMatrix nextLength nextRadius w with
               | Some w' => Some (Next w')
               | None => None
               end)
          w
  end.

Inductive Warning : Type :=
| branches_exceeded (actualInstanceCount estimatedMaxInstances : Z)
| leaves_exceeded (actualLeafCount estimatedMaxInstances : Z).

(** The variables of the script after a generation. *)
Record State : Type := mkState {
  branchMatrices : list Emitted;
  leafMatrices : list Emitted;
  estimatedMaxInstances : Z;
  treeInstancedMesh_count : Z;
  leafInstancedMesh_count : Z;
  warnings : list Warning
}.

(** [generateTree()], from the estimate to the instance counts. *)
Definition generateTree (rng : nat -> Q) (fuel : nat) (config : EditorConfig)
    : option State :=
  let est := estimateMaxInstances config in
  match collectBranchData rng fuel config est 0 newMatrix4
          (initialLength config) (initialRadius config) (mkWorld [] [] 0) with
  | None => None
  | Some w =>
      let actualInstanceCount := array_length (branchMatricesArray w) in
      let warn1 :=
        if actualInstanceCount >? est
        then [branches_exceeded actualInstanceCount est] else [] in
      let actualLeafCount := array_length (leafMatricesArray w) in
      let warn2 :=
        if actualLeafCount >? est
        then [leaves_exceeded actualLeafCount est] else [] in
      Some (mkState (branchMatricesArray w) (leafMatricesArray w) est
              (Z.min actualInstanceCount est) (Z.min actualLeafCount est)
              (warn1 ++ warn2))
  end.

(** [array.slice(0, end)]: a negative [end] counts from the end of the
    array. *)
Definition slice0 {A : Type} (a : list A) (stop : Z) : list A :=
  if stop <? 0
  then firstn (Z.to_nat (Z.max (array_length a + stop) 0)) a
  else firstn (Z.to_nat stop) a.

(** The object that [saveFullTreeData] writes to [tree_data.json]; a
    matrix stands for the array of its 16 entries. *)
Record TreeData : Type := mkTreeData {
  data_taperFactor : Q;
  data_leafSize : Q;
  data_branchColor : string;
  data_leafColor : string;
  data_branchMatrices : list Matrix4;
  data_leafMatrices : list Matrix4
}.

(** The colour of [leafMaterial], 0x228B22, as [getHexString] gives it. *)
Definition leafMaterial_color : string := "228b22".

Definition saveFullTreeData (config : EditorConfig) (s : State) : TreeData :=
  let serializableBranchMatrices :=
    map em_matrix (slice0 (branchMatrices s) (treeInstancedMesh_count s)) in
  let serializableLeafMatrices :=
    map em_matrix (slice0 (leafMatrices s) (leafInstancedMesh_count s)) in
  mkTreeData (taperFactor config) (leafSize config) (branchColor config)
    leafMaterial_color serializableBranchMatrices serializableLeafMatrices.



(** The configuration object of the script, before any slider is moved. *)
Definition config : EditorConfig :=
  mkEditorConfig 5 10 (7 # 10) (7 # 10) 30 (6 # 10) (1 # 10) 2 10 10
    (68 # 100) "5c4033" (3 # 2) (1 # 2).

End Editor.

(** The limit of the leaves is reached: no room for two more leaves. *)
Definition leaf_limit (est : Z) (w : World) : Prop :=
  est - 1 <= array_length (leafMatricesArray w).

(** The states of the editor and of the generator module after the same
    calls: they are the same state, or they hold the same arrays and the
    limit of the leaves is reached (the editor has then made draws that
    the module has not). *)
Definition same_arrays (est : Z) (w1 w2 : World) : Prop :=
  w1 = w2 \/
  (branchMatricesArray w1 = branchMatricesArray w2 /\
   leafMatricesArray w1 = leafMatricesArray w2 /\
   leaf_limit est w1).

(** The bodies of the loops over the children in the editor and in the
    generator module, for a segment with the given arguments. *)
Definition editor_body (rng : nat -> Q) (fuel : nat)
    (config : Editor.EditorConfig) (est level : Z) (parentMatrix : Matrix4)
    (length radius : Q) : Z -> World -> option (LoopStep World) :=
  fun i w =>
    if array_length (branchMatricesArray w) >=? est then Some (Break w)
    else
      let child :=
        childOf rng (Editor.parameters config) parentMatrix length radius i w in
      match
        Editor.collectBranchData rng fuel config est (level + 1)
          (fst (fst (fst child))) (snd (fst (fst child)))
          (snd (fst child)) (snd child)
      with
      | Some w' => Some (Next w')
      | None => None
      end.

Definition module_body (rng : nat -> Q) (fuel : nat)
    (config : Editor.EditorConfig) (est level : Z) (parentMatrix : Matrix4)
    (length radius : Q) : Z -> World -> option (LoopStep World) :=
  fun i w =>
    if reachedLimit est w then Some (Break w)
    else
      let child :=
        childOf rng (Editor.parameters config) parentMatrix length radius i w in
      match
        collectBranchDataRecursive rng fuel (Editor.parameters config) est
          (level + 1)
          (fst (fst (fst child))) (snd (fst (fst child)))
          (snd (fst child)) (snd child)
      with
      | Some w' => Some (Next w')
      | None => None
      end.

(** ** The loaders: [param_loader_script.js] and the tree loader

    Of the scene only the two instanced meshes are kept: the colour of the
    material, the top radius of the tapered cylinder and the matrices set
    with [setMatrixAt], in order. *)

Inductive Color : Type :=
| ColorHex (hex : Z)            (* new THREE.Color(0x5C4033) *)
| ColorStyle (style : string).  (* new THREE.Color("#5c4033") *)

Record BranchMesh : Type := mkBranchMesh {
  branch_color : Color;
  baseTopRadius : Q;
  branch_instances : list Matrix4
}.

Record LeafMesh : Type := mkLeafMesh {
  leaf_color : Color;
  leaf_instances : list Matrix4
}.

(** The meshes in the scene after a display; the meshes of the display
    before are removed first. *)
Record Scene : Type := mkScene {
  branchMesh : option BranchMesh;
  leafMesh : option LeafMesh
}.

Module ParamLoader.



End ParamLoader.

Module TreeLoader.

(** [displayLoadedTree(treeData)] on the object of a [tree_data.json]. *)
Definition displayLoadedTree (treeData : Editor.TreeData) : Scene :=
  let branchMatricesData := Editor.data_branchMatrices treeData in
  let leafMatricesData := Editor.data_leafMatrices treeData in
  let branchCount := array_length branchMatricesData in
  let leafCount := array_length leafMatricesData in
  if branchCount =? 0 then mkScene None None
  else
    let loadedBranchMesh :=
      mkBranchMesh (ColorStyle ("#" ++ Editor.data_branchColor treeData))
        ((1 # 2) * Editor.data_taperFactor treeData)%Q
        branchMatricesData in
    let loadedLeafMesh :=
      if leafCount >? 0
      then Some (mkLeafMesh (ColorStyle ("#" ++ Editor.data_leafColor treeData))
                   leafMatricesData)
      else None in
    mkScene (Some loadedBranchMesh) loadedLeafMesh.

End TreeLoader.

(** The meshes that [generateTree] of the editor puts in the scene: the
    first [count] matrices of each array. *)
Definition editor_instances (s : Editor.State) : list Matrix4 * list Matrix4 :=
  (map em_matrix
     (firstn (Z.to_nat (Editor.treeInstancedMesh_count s))
        (Editor.branchMatrices s)),
   map em_matrix
     (firstn (Z.to_nat (Editor.leafInstancedMesh_count s))
        (Editor.leafMatrices s))).

(** * Properties of the estimator *)

Section Estimator.

Variable branches : Z.

Lemma for_upto_sum (n k : nat) (count : Z) :
for_upto n (Z.of_nat k) (fun i count => count + branches ^ i) count =
count + fold_right Z.add 0 (map (fun i => branches ^ Z.of_nat i) (seq k n)).
Proof.
revert k count; induction n as [|n IH]; intros k count; simpl.
- lia.
- replace (Z.of_nat k + 1) with (Z.of_nat (S k)) by lia.
  rewrite IH. lia.
Qed.

Lemma for_upto_nonneg (n : nat) (i count : Z) :
0 <= branches -> 0 <= count ->
count <= for_upto n i (fun i count => count + branches ^ i) count.
Proof.
intros Hb; revert i count; induction n as [|n IH]; intros i count Hc; simpl.
- lia.
- assert (0 <= branches ^ i) by (apply Z.pow_nonneg; exact Hb).
  specialize (IH (i + 1) (count + branches ^ i)). lia.
Qed.

Lemma for_upto_split {S : Type} (body : Z -> S -> S) (n m : nat) (i : Z) (s : S) :
for_upto (n + m) i body s =
for_upto m (i + Z.of_nat n) body (for_upto n i body s).
Proof.
revert i s; induction n as [|n IH]; intros i s.
- simpl. f_equal. lia.
- cbn [Nat.add for_upto]. rewrite IH. f_equal. lia.
Qed.

Lemma for_upto_mono (n m : nat) (count : Z) :
0 <= branches -> 0 <= count -> (n <= m)%nat ->
for_upto n 0 (fun i count => count + branches ^ i) count
<= for_upto m 0 (fun i count => count + branches ^ i) count.
Proof.
intros Hb Hc Hnm.
replace m with (n + (m - n))%nat by lia.
rewrite for_upto_split.
apply for_upto_nonneg; [exact Hb|].
pose proof (for_upto_nonneg n 0 count Hb Hc). lia.
Qed.

End Estimator.

Lemma estimate_scale_mono (c1 c2 : Z) (f : Q) :
  (0 <= f)%Q -> c1 <= c2 ->
  Qceiling (inject_Z c1 * f * (3 # 2)) <= Qceiling (inject_Z c2 * f * (3 # 2)).
Proof.
  intros Hf Hc. apply Qceiling_resp_le.
  apply Qmult_le_compat_r; [|discriminate].
  apply Qmult_le_compat_r; [|exact Hf].
  rewrite <- Zle_Qle. exact Hc.
Qed.

(** The loop of the estimator, by the fields as they are read. *)
Lemma estimateMaxInstances_unfold (config : Config) (f : Q) :
  estimateMaxInstances config f =
  Qceiling (inject_Z
    (for_upto (Z.to_nat ((maxDepth config |?| 5) + 1)) 0
       (fun i count => count + (numBranches config |?| 2) ^ i) 0) * f * (3 # 2)).
Proof. reflexivity. Qed.

Lemma falsy_or_nonneg (x : option Z) (d : Z) :
  0 <= d -> (forall v, x = Some v -> 0 <= v) -> 0 <= x |?| d.
Proof.
  intros Hd Hx. destruct x as [v|]; simpl; [|exact Hd].
  specialize (Hx v eq_refl). destruct v; simpl; lia.
Qed.

(** The budget of a configuration of the data model is not negative. *)
Lemma estimateMaxInstances_nonneg (config : Config) :
  (forall b, numBranches config = Some b -> 0 <= b) ->
  0 <= estimateMaxInstances config default_estimateFactor.
Proof.
  intros Hb. rewrite estimateMaxInstances_unfold.
  apply Z.le_trans
    with (Qceiling (inject_Z 0 * default_estimateFactor * (3 # 2)));
    [vm_compute; discriminate|].
  apply estimate_scale_mono; [discriminate|].
  apply for_upto_nonneg; [|lia].
  apply falsy_or_nonneg; [lia|exact Hb].
Qed.

(** On a field that is present and not [0], [||] reads the field. *)
Lemma falsy_or_present (v d : Z) : v <> 0 -> Some v |?| d = v.
Proof. intros Hv. destruct v; simpl; congruence. Qed.

(** Where [maxDepth] and [numBranches] are present and not [0], the
    estimator computes the estimate of the specification. *)
Lemma estimateMaxInstances_spec (config : Config) (d b : Z) :
  maxDepth config = Some d -> numBranches config = Some b ->
  d <> 0 -> b <> 0 ->
  estimateMaxInstances config default_estimateFactor = spec_estimate b d.
Proof.
  intros Hd Hb Hd0 Hb0. rewrite estimateMaxInstances_unfold, Hd, Hb.
  rewrite !falsy_or_present by assumption.
  unfold spec_estimate, geometric_count.
  change 0 with (Z.of_nat 0) at 1. rewrite for_upto_sum. reflexivity.
Qed.

(** For a fixed [numBranches >= 1], the estimate does not decrease when
    [maxDepth] grows from a depth that is at least 1. *)
Lemma estimateMaxInstances_mono_from_1 (c1 c2 : Config) (d1 d2 b : Z) :
  maxDepth c1 = Some d1 -> maxDepth c2 = Some d2 ->
  numBranches c1 = Some b -> numBranches c2 = Some b ->
  1 <= b -> 1 <= d1 <= d2 ->
  estimateMaxInstances c1 default_estimateFactor
  <= estimateMaxInstances c2 default_estimateFactor.
Proof.
  intros H1 H2 Hb1 Hb2 Hb Hd.
  rewrite !estimateMaxInstances_unfold, H1, H2, Hb1, Hb2.
  rewrite !falsy_or_present by lia.
  apply estimate_scale_mono; [discriminate|].
  apply for_upto_mono; lia.
Qed.

(** * Properties of the state operations *)

(** One step of [collectBranchDataRecursive]. *)
Lemma collectBranchDataRecursive_step (rng : nat -> Q) (fuel : nat)
    (config : Config) (est level : Z) (parentMatrix : Matrix4)
    (length radius : Q) (w : World) :
  collectBranchDataRecursive rng (S fuel) config est level parentMatrix
    length radius w =
  if isTerminal config level length radius || reachedLimit est w then
    if isTerminal config level length radius && (level >? 0) then
      if array_length (leafMatricesArray w) <? est - 1
      then Some (addLeaves rng config level parentMatrix length radius w)
      else Some w
    else Some w
  else
    for_break (Z.to_nat (numBranches config ?? 2)) 0
      (fun i w =>
         if reachedLimit est w then Some (Break w)
         else
           let child := childOf rng config parentMatrix length radius i w in
           match
             collectBranchDataRecursive rng fuel config est (level + 1)
               (fst (fst (fst child))) (snd (fst (fst child)))
               (snd (fst child)) (snd child)
           with
           | Some w' => Some (Next w')
           | None => None
           end)
      (push_branch
         (mkEmitted level length radius
            (branchMatrix config parentMatrix length radius)) w).
Proof. reflexivity. Qed.

Lemma Math_random_branches (rng : nat -> Q) (w : World) :
  branchMatricesArray (snd (Math_random rng w)) = branchMatricesArray w.
Proof. reflexivity. Qed.

Lemma Math_random_leaves (rng : nat -> Q) (w : World) :
  leafMatricesArray (snd (Math_random rng w)) = leafMatricesArray w.
Proof. reflexivity. Qed.

(** [addLeaves] appends exactly two leaves, both tagged with the arguments
    of the call, and leaves the branches as they are. *)
Lemma addLeaves_leaves (rng : nat -> Q) (config : Config) (level : Z)
    (parentMatrix : Matrix4) (length radius : Q) (w : World) :
  exists m1 m2,
    leafMatricesArray (addLeaves rng config level parentMatrix length radius w) =
    leafMatricesArray w ++
      [mkEmitted level length radius m1; mkEmitted level length radius m2].
Proof.
  unfold addLeaves, randomQuat, Math_random, push_leaf; simpl.
  rewrite <- app_assoc. simpl. eauto.
Qed.

Lemma addLeaves_branches (rng : nat -> Q) (config : Config) (level : Z)
    (parentMatrix : Matrix4) (length radius : Q) (w : World) :
  branchMatricesArray (addLeaves rng config level parentMatrix length radius w) =
  branchMatricesArray w.
Proof. reflexivity. Qed.

Lemma array_length_app {A : Type} (a b : list A) :
  array_length (a ++ b) = array_length a + array_length b.
Proof. unfold array_length. rewrite length_app. lia. Qed.

Lemma reachedLimit_false (est : Z) (w : World) :
  reachedLimit est w = false ->
  array_length (branchMatricesArray w) < est /\
  array_length (leafMatricesArray w) < est - 1.
Proof.
  unfold reachedLimit. intros H. apply orb_false_iff in H. destruct H as [H1 H2].
  rewrite Z.geb_leb in H1, H2. apply Z.leb_gt in H1. apply Z.leb_gt in H2.
  split; lia.
Qed.

Lemma isTerminal_false (config : Config) (level : Z) (length radius : Q) :
  isTerminal config level length radius = false ->
  level < maxDepth config ?? 5 /\
  (1 # 100 < length)%Q /\
  (minRadius config ?? (1 # 10) <= radius)%Q.
Proof.
  unfold isTerminal, Qlt_bool. intros H.
  apply orb_false_iff in H. destruct H as [H H3].
  apply orb_false_iff in H. destruct H as [H1 H2].
  rewrite Z.geb_leb in H1. apply Z.leb_gt in H1. apply negb_false_iff in H3.
  apply Qle_bool_iff in H3.
  repeat split; [lia| |exact H3].
  apply Qnot_le_lt. intros Hle. apply Qle_bool_iff in Hle. congruence.
Qed.

(** * Invariants of the recursion

    A property of the state that is kept by a draw, by the push of a
    branch in a call that is not terminal and within the budget, and by the
    push of the two leaves in a terminal call above level 0 with room for
    them, is kept by [collectBranchDataRecursive]. *)

Section Invariant.

Variable rng : nat -> Q.
Variable config : Config.
Variable est : Z.
Variable Inv : World -> Prop.

Hypothesis Inv_random : forall w, Inv w -> Inv (snd (Math_random rng w)).

Hypothesis Inv_branch :
  forall level parentMatrix length radius w,
    Inv w ->
    isTerminal config level length radius = false ->
    reachedLimit est w = false ->
    Inv (push_branch
           (mkEmitted level length radius
              (branchMatrix config parentMatrix length radius)) w).

Hypothesis Inv_leaves :
  forall level parentMatrix length radius w,
    Inv w ->
    isTerminal config level length radius = true ->
    0 < level ->
    array_length (leafMatricesArray w) < est - 1 ->
    Inv (addLeaves rng config level parentMatrix length radius w).

Lemma childArguments_inv base len rad step i w :
  Inv w -> Inv (snd (childArguments rng config base len rad step i w)).
Proof.
  intros H.
  change (Inv (snd (Math_random rng (snd (Math_random rng
                 (snd (Math_random rng w))))))).
  do 3 apply Inv_random. exact H.
Qed.

Lemma for_break_inv (body : Z -> World -> option (LoopStep World)) :
  (forall i w w', Inv w -> body i w = Some (Break w') -> Inv w') ->
  (forall i w w', Inv w -> body i w = Some (Next w') -> Inv w') ->
  forall n i w w', Inv w -> for_break n i body w = Some w' -> Inv w'.
Proof.
  intros Hbreak Hnext n; induction n as [|n IH]; intros i w w' Hw Hrun; simpl in Hrun.
  - injection Hrun as <-. exact Hw.
  - destruct (body i w) as [[s|s]|] eqn:Hbody; [| |discriminate].
    + injection Hrun as <-. eapply Hbreak; eassumption.
    + eapply IH; [|eassumption]. eapply Hnext; eassumption.
Qed.

Lemma collectBranchDataRecursive_inv (fuel : nat) :
  forall level parentMatrix length radius w w',
    Inv w ->
    collectBranchDataRecursive rng fuel config est level parentMatrix
      length radius w = Some w' ->
    Inv w'.
Proof.
  induction fuel as [|fuel IH]; intros level parentMatrix length radius w w' Hw Hrun;
    [discriminate|].
  rewrite collectBranchDataRecursive_step in Hrun.
  destruct (isTerminal config level length radius) eqn:Hterm;
    cbn [orb andb] in Hrun.
  - (* terminal *)
    destruct (level >? 0) eqn:Hlevel.
    + destruct (array_length (leafMatricesArray w) <? est - 1) eqn:Hroom;
        injection Hrun as <-; [|exact Hw].
      apply Inv_leaves; [exact Hw|exact Hterm| |].
      * apply Z.gtb_lt in Hlevel. lia.
      * apply Z.ltb_lt in Hroom. exact Hroom.
    + injection Hrun as <-. exact Hw.
  - destruct (reachedLimit est w) eqn:Hlimit.
    + (* the budget is reached: nothing is pushed *)
      injection Hrun as <-. exact Hw.
    + (* a branch and its children *)
      eapply for_break_inv; [| | |exact Hrun].
      * intros i w0 w0' Hw0 Hbody. cbv beta zeta in Hbody.
        destruct (reachedLimit est w0); [injection Hbody as <-; exact Hw0|].
        destruct (collectBranchDataRecursive _ _ _ _ _ _ _ _ _); discriminate.
      * intros i w0 w0' Hw0 Hbody. cbv beta zeta in Hbody.
        destruct (reachedLimit est w0); [discriminate|].
        destruct (collectBranchDataRecursive _ _ _ _ _ _ _ _ _) as [w2|] eqn:Hrec;
          [|discriminate].
        injection Hbody as <-.
        eapply IH; [|exact Hrec].
        apply childArguments_inv. exact Hw0.
      * apply Inv_branch; assumption.
Qed.

End Invariant.

(** * Termination: the depth of nested calls *)

Lemma for_break_returns {S : Type} (body : Z -> S -> option (LoopStep S)) :
  (forall i s, exists r, body i s = Some r) ->
  forall n i s, exists s', for_break n i body s = Some s'.
Proof.
  intros Hbody n; induction n as [|n IH]; intros i s; simpl.
  - eauto.
  - destruct (Hbody i s) as [[s'|s'] ->]; eauto.
Qed.

(** A call at [level] returns when [fuel] exceeds the number of levels
    that remain below [maxDepth]. *)
Lemma collectBranchDataRecursive_returns (rng : nat -> Q) (config : Config)
    (est : Z) (fuel : nat) :
  forall level parentMatrix length radius w,
    (Z.to_nat (maxDepth config ?? 5%Z - level) < fuel)%nat ->
    exists w',
      collectBranchDataRecursive rng fuel config est level parentMatrix
        length radius w = Some w'.
Proof.
  induction fuel as [|fuel IH]; intros level parentMatrix length radius w Hfuel;
    [lia|].
  rewrite collectBranchDataRecursive_step.
  destruct (isTerminal config level length radius) eqn:Hterm; cbn [orb andb].
  - destruct (level >? 0); [|eauto].
    destruct (array_length (leafMatricesArray w) <? est - 1); eauto.
  - destruct (reachedLimit est w); [eauto|].
    apply for_break_returns. intros i w0. cbv beta zeta.
    destruct (reachedLimit est w0); [eauto|].
    apply isTerminal_false in Hterm. destruct Hterm as [Hlevel _].
    edestruct IH as [w' ->]; [|eauto]. lia.
Qed.

(** A terminal call returns without a nested call. *)
Lemma collectBranchDataRecursive_terminal (rng : nat -> Q) (config : Config)
    (est level : Z) (parentMatrix : Matrix4) (length radius : Q) (w : World) :
  isTerminal config level length radius = true ->
  exists w',
    collectBranchDataRecursive rng 1 config est level parentMatrix
      length radius w = Some w'.
Proof.
  intros Hterm. rewrite collectBranchDataRecursive_step, Hterm. cbn [orb andb].
  destruct (level >? 0); [|eauto].
  destruct (array_length (leafMatricesArray w) <? est - 1); eauto.
Qed.

(** [generateTreeMatrices] on a configuration, by the final state of the
    recursion. *)
Lemma generateTreeMatrices_Some (rng : nat -> Q) (fuel : nat) (config : Config)
    (w : World) :
  collectBranchDataRecursive rng fuel config
    (estimateMaxInstances config default_estimateFactor) 0 newMatrix4
    (initialLength config ?? 10%Q)
    (initialRadius config ?? ((initialLength config ?? 10%Q) / 15)%Q)
    (mkWorld [] [] 0) = Some w ->
  generateTreeMatrices rng fuel (Some config) =
  Some (mkTreeMatrices (branchMatricesArray w) (leafMatricesArray w),
        [console_log_generated (array_length (branchMatricesArray w))
                               (array_length (leafMatricesArray w))]).
Proof. intros H. unfold generateTreeMatrices. rewrite H. reflexivity. Qed.

(** With [fuel >= depth_bound config], the generation returns, and its
    result is the final state of the recursion, which satisfies every
    invariant that the empty state satisfies. *)
Lemma generateTreeMatrices_inv (rng : nat -> Q) (fuel : nat) (config : Config)
    (Inv : World -> Prop) :
  (depth_bound config <= fuel)%nat ->
  Inv (mkWorld [] [] 0) ->
  (forall level parentMatrix length radius w w',
     Inv w ->
     collectBranchDataRecursive rng fuel config
       (estimateMaxInstances config default_estimateFactor)
       level parentMatrix length radius w = Some w' ->
     Inv w') ->
  exists w,
    Inv w /\
    generateTreeMatrices rng fuel (Some config) =
    Some (mkTreeMatrices (branchMatricesArray w) (leafMatricesArray w),
          [console_log_generated (array_length (branchMatricesArray w))
                                 (array_length (leafMatricesArray w))]).
Proof.
  intros Hfuel H0 Hstep.
  destruct (collectBranchDataRecursive_returns rng config
              (estimateMaxInstances config default_estimateFactor) fuel 0
              newMatrix4 (initialLength config ?? 10%Q)
              (initialRadius config ?? ((initialLength config ?? 10%Q) / 15)%Q)
              (mkWorld [] [] 0)) as [w Hw].
  { unfold depth_bound in Hfuel. rewrite Z.sub_0_r. lia. }
  exists w. split.
  - eapply Hstep; [exact H0|exact Hw].
  - apply generateTreeMatrices_Some. exact Hw.
Qed.

(** * The random source *)

Section SameDraws.

Variables rng1 rng2 : nat -> Q.
Hypothesis same : forall n, rng1 n = rng2 n.

Lemma Math_random_same (w : World) : Math_random rng1 w = Math_random rng2 w.
Proof. unfold Math_random. rewrite same. reflexivity. Qed.

Lemma randomQuat_same (w : World) : randomQuat rng1 w = randomQuat rng2 w.
Proof. unfold randomQuat, Math_random; cbn. rewrite !same. reflexivity. Qed.

Lemma addLeaves_same config level parentMatrix length radius w :
  addLeaves rng1 config level parentMatrix length radius w =
  addLeaves rng2 config level parentMatrix length radius w.
Proof.
  unfold addLeaves. rewrite randomQuat_same.
  destruct (randomQuat rng2 w) as [q w1].
  rewrite randomQuat_same. reflexivity.
Qed.

Lemma childArguments_same config base len rad step i w :
  childArguments rng1 config base len rad step i w =
  childArguments rng2 config base len rad step i w.
Proof. unfold childArguments, Math_random; cbn. rewrite !same. reflexivity. Qed.

Lemma for_break_same {S : Type} (body1 body2 : Z -> S -> option (LoopStep S)) :
  (forall i s, body1 i s = body2 i s) ->
  forall n i s, for_break n i body1 s = for_break n i body2 s.
Proof.
  intros Hbody n; induction n as [|n IH]; intros i s; simpl; [reflexivity|].
  rewrite Hbody. destruct (body2 i s) as [[s'|s']|]; auto.
Qed.

Lemma collectBranchDataRecursive_same config est fuel :
  forall level parentMatrix length radius w,
    collectBranchDataRecursive rng1 fuel config est level parentMatrix
      length radius w =
    collectBranchDataRecursive rng2 fuel config est level parentMatrix
      length radius w.
Proof.
  induction fuel as [|fuel IH]; intros level parentMatrix length radius w;
    [reflexivity|].
  rewrite !collectBranchDataRecursive_step, addLeaves_same.
  destruct (isTerminal config level length radius || reachedLimit est w);
    [reflexivity|].
  apply for_break_same. intros i w0. cbv beta zeta.
  unfold childOf. rewrite childArguments_same, IH. reflexivity.
Qed.

Lemma generateTreeMatrices_same fuel config :
  generateTreeMatrices rng1 fuel config = generateTreeMatrices rng2 fuel config.
Proof.
  destruct config as [config|]; [|reflexivity].
  unfold generateTreeMatrices.
  rewrite collectBranchDataRecursive_same. reflexivity.
Qed.

End SameDraws.

(** * The instance budget *)

(** Every call keeps the arrays within the budget: a branch is pushed only
    below the budget, and the two leaves only when two places are left. *)
Lemma collectBranchDataRecursive_within_budget (rng : nat -> Q)
    (config : Config) (est : Z) (fuel : nat) :
  forall level parentMatrix length radius w w',
    within_budget est w ->
    collectBranchDataRecursive rng fuel config est level parentMatrix
      length radius w = Some w' ->
    within_budget est w'.
Proof.
  apply collectBranchDataRecursive_inv.
  - intros w H. exact H.
  - intros level parentMatrix length radius w [Hb Hl] _ Hlimit.
    apply reachedLimit_false in Hlimit. destruct Hlimit as [Hlimit _].
    split; [|exact Hl]. cbn [push_branch branchMatricesArray].
    rewrite array_length_app. change (array_length [_]) with 1. lia.
  - intros level parentMatrix length radius w [Hb Hl] _ _ Hroom.
    split; [rewrite addLeaves_branches; exact Hb|].
    destruct (addLeaves_leaves rng config level parentMatrix length radius w)
      as (m1 & m2 & ->).
    rewrite array_length_app. change (array_length [_; _]) with 2. lia.
Qed.

(** The arrays only grow: a call appends to them. *)
Lemma collectBranchDataRecursive_extends (rng : nat -> Q)
    (config : Config) (est : Z) (fuel : nat) :
  forall level parentMatrix length radius w w',
    collectBranchDataRecursive rng fuel config est level parentMatrix
      length radius w = Some w' ->
    exists bs ls,
      branchMatricesArray w' = branchMatricesArray w ++ bs /\
      leafMatricesArray w' = leafMatricesArray w ++ ls.
Proof.
  intros level parentMatrix length radius w w' Hrun.
  eapply (collectBranchDataRecursive_inv rng config est
            (fun w' => exists bs ls,
               branchMatricesArray w' = branchMatricesArray w ++ bs /\
               leafMatricesArray w' = leafMatricesArray w ++ ls));
    [| | | |exact Hrun].
  - intros w0 H. exact H.
  - intros l p len r w0 (bs & ls & Hb & Hl) _ _.
    exists (bs ++ [mkEmitted l len r (branchMatrix config p len r)]), ls.
    cbn [push_branch branchMatricesArray leafMatricesArray].
    rewrite Hb, app_assoc. auto.
  - intros l p len r w0 (bs & ls & Hb & Hl) _ _ _.
    destruct (addLeaves_leaves rng config l p len r w0) as (m1 & m2 & Hm).
    exists bs, (ls ++ [mkEmitted l len r m1; mkEmitted l len r m2]).
    rewrite addLeaves_branches, Hm, Hl, app_assoc. auto.
  - exists [], []. rewrite !app_nil_r. auto.
Qed.

(** C1. For every configuration of the data model ([maxDepth >= 0],
    [numBranches >= 1] when present) and every sequence of random draws,
    [generateTreeMatrices] returns, and neither the number of branch
    matrices nor the number of leaf matrices exceeds
    [estimateMaxInstances(config)].  The arrays only grow
    ([collectBranchDataRecursive_extends]) and every call keeps them
    within the budget ([collectBranchDataRecursive_within_budget]), so no
    push makes a length exceed the budget. *)
Theorem cardinality_bound (rng : nat -> Q) (fuel : nat) (config : Config) :
  well_formed config ->
  (depth_bound config <= fuel)%nat ->
  exists result console,
    generateTreeMatrices rng fuel (Some config) = Some (result, console) /\
    array_length (branchMatrices result)
      <= estimateMaxInstances config default_estimateFactor /\
    array_length (leafMatrices result)
      <= estimateMaxInstances config default_estimateFactor.
Proof.
  intros [_ Hb] Hfuel.
  assert (Hest : 0 <= estimateMaxInstances config default_estimateFactor).
  { apply estimateMaxInstances_nonneg. intros b Hnb. specialize (Hb b Hnb). lia. }
  destruct (generateTreeMatrices_inv rng fuel config
              (within_budget (estimateMaxInstances config default_estimateFactor)))
    as (w & [Hwb Hwl] & Hgen).
  - exact Hfuel.
  - split; exact Hest.
  - apply collectBranchDataRecursive_within_budget.
  - eexists. eexists. split; [exact Hgen|]. split; assumption.
Qed.

Lemma cardinality_bound_witness :
  exists result console,
    generateTreeMatrices pinned 2 (Some depth1_config) = Some (result, console) /\
    array_length (branchMatrices result)
      <= estimateMaxInstances depth1_config default_estimateFactor /\
    array_length (leafMatrices result)
      <= estimateMaxInstances depth1_config default_estimateFactor.
Proof.
  apply (cardinality_bound pinned 2 depth1_config).
  - split; intros v H; injection H as <-; lia.
  - vm_compute. lia.
Defined.

(** * The depth-1 example *)

(** C2, as the code behaves.  For the configuration of the example and any
    random draws, [generateTreeMatrices] returns exactly one branch
    matrix, pushed at level 0, and exactly four leaf matrices, pushed at
    level 1: the two children at level 1 are terminal, and a terminal call
    pushes leaves and no branch. *)
Theorem depth1_example (rng : nat -> Q) (fuel : nat) :
  (2 <= fuel)%nat ->
  exists result console,
    generateTreeMatrices rng fuel (Some depth1_config) = Some (result, console) /\
    map em_level (branchMatrices result) = [0] /\
    map em_level (leafMatrices result) = [1; 1; 1; 1] /\
    console = [console_log_generated 1 4].
Proof.
  intros Hfuel. destruct fuel as [|[|fuel]]; [lia|lia|].
  eexists. eexists. split; [reflexivity|].
  repeat split.
Qed.

Lemma depth1_example_witness :
  exists result console,
    generateTreeMatrices pinned 2 (Some depth1_config) = Some (result, console) /\
    map em_level (branchMatrices result) = [0] /\
    map em_level (leafMatrices result) = [1; 1; 1; 1] /\
    console = [console_log_generated 1 4].
Proof. apply (depth1_example pinned 2). lia. Defined.

(** C2, as the specification states it, fails: with every draw pinned to
    0.5 the example returns one branch matrix, not three. *)
Lemma depth1_example_not_three_branches :
  ~ (exists result console,
       generateTreeMatrices pinned 2 (Some depth1_config) = Some (result, console) /\
       List.length (branchMatrices result) = 3%nat /\
       List.length (leafMatrices result) = 4%nat).
Proof.
  intros (result & console & Hgen & Hb & _).
  vm_compute in Hgen. injection Hgen as <- _.
  discriminate Hb.
Qed.

(** * The estimator at [maxDepth = 0] *)

(** C3 at [{maxDepth: 0, numBranches: 2}].  The field [maxDepth] is
    present, the sum of the specification is [2^0 = 1] and its estimate is
    [ceil(2.25) = 3]; the estimator reads the field with [||], takes the
    default depth 5 and returns [ceil(63 * 2.25) = 142].  The recursion reads
    the same field with [??] and stops at depth 0. *)
Theorem estimateMaxInstances_depth0 :
  estimateMaxInstances depth0_config default_estimateFactor = 142 /\
  spec_estimate 2 0 = 3 /\
  maxDepth depth0_config ?? 5 = 0 /\
  maxDepth depth0_config |?| 5 = 5.
Proof. repeat split. Qed.

(** C4 at [numBranches = 2], [d1 = 0] and [d2 = 1]: the estimate at
    [maxDepth = 0] is 142, by the default depth 5 that [||] takes for [0],
    and the estimate at [maxDepth = 1] is [ceil(3 * 2.25) = 7]. *)
Theorem estimateMaxInstances_not_monotone_at_0 :
  estimateMaxInstances depth0_config default_estimateFactor = 142 /\
  estimateMaxInstances depth1_two_branches default_estimateFactor = 7 /\
  ~ (estimateMaxInstances depth0_config default_estimateFactor
     <= estimateMaxInstances depth1_two_branches default_estimateFactor).
Proof. repeat split. vm_compute. intros H. apply H. reflexivity. Qed.

(** * Leaves and levels *)

(** C5. For every configuration and every sequence of random draws, every
    leaf matrix of the result was pushed by a call at a level >= 1: the
    call at level 0 pushes no leaf. *)
Theorem root_has_no_leaves (rng : nat -> Q) (fuel : nat) (config : Config) :
  (depth_bound config <= fuel)%nat ->
  exists result console,
    generateTreeMatrices rng fuel (Some config) = Some (result, console) /\
    Forall (fun leaf => 1 <= em_level leaf) (leafMatrices result).
Proof.
  intros Hfuel.
  destruct (generateTreeMatrices_inv rng fuel config
              (fun w => Forall (fun leaf => 1 <= em_level leaf)
                          (leafMatricesArray w)))
    as (w & Hw & Hgen).
  - exact Hfuel.
  - constructor.
  - apply collectBranchDataRecursive_inv.
    + intros w H. exact H.
    + intros level parentMatrix length radius w H _ _. exact H.
    + intros level parentMatrix length radius w H _ Hlevel _.
      destruct (addLeaves_leaves rng config level parentMatrix length radius w)
        as (m1 & m2 & ->).
      apply Forall_app. split; [exact H|].
      repeat constructor; simpl; lia.
  - eexists. eexists. split; [exact Hgen|exact Hw].
Qed.

Lemma root_has_no_leaves_witness :
  exists result console,
    generateTreeMatrices pinned 2 (Some depth1_config) = Some (result, console) /\
    Forall (fun leaf => 1 <= em_level leaf) (leafMatrices result).
Proof. apply (root_has_no_leaves pinned 2 depth1_config). vm_compute. lia. Defined.

(** C6. For every configuration and every sequence of random draws, every
    branch matrix of the result was pushed by a call with
    [level < maxDepth], [length > 0.01] and [radius >= minRadius]. *)
Theorem branches_within_limits (rng : nat -> Q) (fuel : nat) (config : Config) :
  (depth_bound config <= fuel)%nat ->
  exists result console,
    generateTreeMatrices rng fuel (Some config) = Some (result, console) /\
    Forall (fun branch =>
              em_level branch < maxDepth config ?? 5 /\
              (1 # 100 < em_length branch)%Q /\
              (minRadius config ?? (1 # 10) <= em_radius branch)%Q)
           (branchMatrices result).
Proof.
  intros Hfuel.
  destruct (generateTreeMatrices_inv rng fuel config
              (fun w => Forall (fun branch =>
                          em_level branch < maxDepth config ?? 5 /\
                          (1 # 100 < em_length branch)%Q /\
                          (minRadius config ?? (1 # 10) <= em_radius branch)%Q)
                        (branchMatricesArray w)))
    as (w & Hw & Hgen).
  - exact Hfuel.
  - constructor.
  - apply collectBranchDataRecursive_inv.
    + intros w H. exact H.
    + intros level parentMatrix length radius w H Hterm _.
      cbn [push_branch branchMatricesArray].
      apply Forall_app. split; [exact H|].
      constructor; [|constructor].
      apply isTerminal_false in Hterm. exact Hterm.
    + intros level parentMatrix length radius w H _ _ _.
      rewrite addLeaves_branches. exact H.
  - eexists. eexists. split; [exact Hgen|exact Hw].
Qed.

Lemma branches_within_limits_witness :
  exists result console,
    generateTreeMatrices pinned 2 (Some depth1_config) = Some (result, console) /\
    Forall (fun branch =>
              em_level branch < maxDepth depth1_config ?? 5 /\
              (1 # 100 < em_length branch)%Q /\
              (minRadius depth1_config ?? (1 # 10) <= em_radius branch)%Q)
           (branchMatrices result).
Proof. apply (branches_within_limits pinned 2 depth1_config). vm_compute. lia. Defined.

(** C10. For every configuration and every sequence of random draws, the
    number of leaf matrices of the result is even: leaves are pushed two
    at a time. *)
Theorem leaves_in_pairs (rng : nat -> Q) (fuel : nat) (config : Config) :
  (depth_bound config <= fuel)%nat ->
  exists result console,
    generateTreeMatrices rng fuel (Some config) = Some (result, console) /\
    Nat.Even (List.length (leafMatrices result)).
Proof.
  intros Hfuel.
  destruct (generateTreeMatrices_inv rng fuel config
              (fun w => Nat.Even (List.length (leafMatricesArray w))))
    as (w & Hw & Hgen).
  - exact Hfuel.
  - exists 0%nat. reflexivity.
  - apply collectBranchDataRecursive_inv.
    + intros w H. exact H.
    + intros level parentMatrix length radius w H _ _. exact H.
    + intros level parentMatrix length radius w [k Hk] _ _ _.
      destruct (addLeaves_leaves rng config level parentMatrix length radius w)
        as (m1 & m2 & ->).
      exists (S k). rewrite length_app, Hk. simpl. lia.
  - eexists. eexists. split; [exact Hgen|exact Hw].
Qed.

Lemma leaves_in_pairs_witness :
  exists result console,
    generateTreeMatrices pinned 2 (Some depth1_config) = Some (result, console) /\
    Nat.Even (List.length (leafMatrices result)).
Proof. apply (leaves_in_pairs pinned 2 depth1_config). vm_compute. lia. Defined.

(** * The facade *)

(** C7. Called without a configuration (or with [null]),
    [generateTreeMatrices] writes an error to the console and returns two
    empty arrays; called with a configuration, it returns a result as
    well: no call fails. *)
Theorem generateTreeMatrices_never_fails (rng : nat -> Q) (fuel : nat) :
  generateTreeMatrices rng fuel None =
    Some (mkTreeMatrices [] [],
          [console_error "generateTreeMatrices requires a configuration object."]) /\
  (forall config,
     (depth_bound config <= fuel)%nat ->
     exists result console,
       generateTreeMatrices rng fuel (Some config) = Some (result, console)).
Proof.
  split; [reflexivity|].
  intros config Hfuel.
  destruct (generateTreeMatrices_inv rng fuel config (fun _ => True))
    as (w & _ & Hgen); eauto.
Qed.

Lemma generateTreeMatrices_never_fails_witness :
  generateTreeMatrices pinned 0 None =
    Some (mkTreeMatrices [] [],
          [console_error "generateTreeMatrices requires a configuration object."]) /\
  exists result console,
    generateTreeMatrices pinned 2 (Some depth1_config) = Some (result, console).
Proof.
  split.
  - apply (generateTreeMatrices_never_fails pinned 0).
  - apply (generateTreeMatrices_never_fails pinned 2). vm_compute. lia.
Defined.

(** C8. The recursion terminates.  A call at [level] returns within
    [1 + (maxDepth - level)] nested calls: each nested call is at the next
    level, and a call at a level >= [maxDepth] returns without a nested
    call (the bound is then 1).  So the generation, which starts at level
    0, returns within [maxDepth] nested calls below the first one. *)
Theorem recursion_depth_bounded (rng : nat -> Q) (config : Config) (est : Z)
    (level : Z) (parentMatrix : Matrix4) (length radius : Q) (w : World) :
  (exists w',
     collectBranchDataRecursive rng
       (S (Z.to_nat (maxDepth config ?? 5 - level)))
       config est level parentMatrix length radius w = Some w') /\
  (exists result console,
     generateTreeMatrices rng (S (Z.to_nat (maxDepth config ?? 5)))
       (Some config) = Some (result, console)).
Proof.
  split.
  - apply collectBranchDataRecursive_returns. lia.
  - destruct (generateTreeMatrices_inv rng (S (Z.to_nat (maxDepth config ?? 5)))
                config (fun _ => True)) as (w' & _ & Hgen); eauto.
Qed.

(** The bound counts nested calls: the depth-1 example needs two. *)
Example depth1_needs_two_calls :
  generateTreeMatrices pinned 1 (Some depth1_config) = None.
Proof. reflexivity. Qed.

(** C9. With the random source as an input, the generation is a function
    of the configuration and of the draws: two runs on streams with the
    same draws return the same branch and leaf matrices and write the same
    to the console. *)
Theorem same_draws_same_result (rng1 rng2 : nat -> Q) (fuel : nat)
    (config : Config) :
  (forall n, rng1 n = rng2 n) ->
  (depth_bound config <= fuel)%nat ->
  exists result console,
    generateTreeMatrices rng1 fuel (Some config) = Some (result, console) /\
    generateTreeMatrices rng2 fuel (Some config) = Some (result, console).
Proof.
  intros Hsame Hfuel.
  destruct (generateTreeMatrices_inv rng1 fuel config (fun _ => True))
    as (w & _ & Hgen); eauto.
  eexists. eexists. split; [exact Hgen|].
  rewrite <- (generateTreeMatrices_same rng1 rng2 Hsame). exact Hgen.
Qed.

Lemma same_draws_same_result_witness :
  exists result console,
    generateTreeMatrices pinned 2 (Some depth1_config) = Some (result, console) /\
    generateTreeMatrices (fun n => if Nat.even n then 1 # 2 else 1 # 2) 2
      (Some depth1_config) = Some (result, console).
Proof.
  apply (same_draws_same_result pinned
           (fun n => if Nat.even n then 1 # 2 else 1 # 2) 2 depth1_config).
  - intros n. unfold pinned. destruct (Nat.even n); reflexivity.
  - vm_compute. lia.
Defined.

(** * Invariants that depend on the arguments of the calls

    [Args] is a property of the arguments of every call: it holds for the
    first call and passes from a call that is not terminal to its
    children.  A property of the state that is kept by the pushes of the
    calls whose arguments satisfy [Args] is kept by the recursion. *)

Section CallInvariant.

Variable rng : nat -> Q.
Variable config : Config.
Variable est : Z.
Variable Args : Z -> Matrix4 -> Q -> Q -> Prop.
Variable Inv : World -> Prop.

Hypothesis Args_child :
  forall level parentMatrix length radius i w,
    Args level parentMatrix length radius ->
    isTerminal config level length radius = false ->
    Args (level + 1)
      (fst (fst (fst (childOf rng config parentMatrix length radius i w))))
      (snd (fst (fst (childOf rng config parentMatrix length radius i w))))
      (snd (fst (childOf rng config parentMatrix length radius i w))).

Hypothesis Inv_draw : forall w, Inv w -> Inv (snd (Math_random rng w)).

Hypothesis Inv_push_branch :
  forall level parentMatrix length radius w,
    Args level parentMatrix length radius ->
    Inv w ->
    isTerminal config level length radius = false ->
    reachedLimit est w = false ->
    Inv (push_branch
           (mkEmitted level length radius
              (branchMatrix config parentMatrix length radius)) w).

Hypothesis Inv_push_leaves :
  forall level parentMatrix length radius w,
    Args level parentMatrix length radius ->
    Inv w ->
    isTerminal config level length radius = true ->
    0 < level ->
    array_length (leafMatricesArray w) < est - 1 ->
    Inv (addLeaves rng config level parentMatrix length radius w).

Lemma collectBranchDataRecursive_inv_at (fuel : nat) :
  forall level parentMatrix length radius w w',
    Args level parentMatrix length radius ->
    Inv w ->
    collectBranchDataRecursive rng fuel config est level parentMatrix
      length radius w = Some w' ->
    Inv w'.
Proof.
  induction fuel as [|fuel IH];
    intros level parentMatrix length radius w w' Hargs Hw Hrun; [discriminate|].
  rewrite collectBranchDataRecursive_step in Hrun.
  destruct (isTerminal config level length radius) eqn:Hterm;
    cbn [orb andb] in Hrun.
  - destruct (level >? 0) eqn:Hlevel.
    + destruct (array_length (leafMatricesArray w) <? est - 1) eqn:Hroom;
        injection Hrun as <-; [|exact Hw].
      apply Inv_push_leaves; [exact Hargs|exact Hw|exact Hterm| |].
      * apply Z.gtb_lt in Hlevel. lia.
      * apply Z.ltb_lt in Hroom. exact Hroom.
    + injection Hrun as <-. exact Hw.
  - destruct (reachedLimit est w) eqn:Hlimit.
    + injection Hrun as <-. exact Hw.
    + eapply (for_break_inv Inv); [| | |exact Hrun].
      * intros i w0 w0' Hw0 Hbody. cbv beta zeta in Hbody.
        destruct (reachedLimit est w0); [injection Hbody as <-; exact Hw0|].
        destruct (collectBranchDataRecursive _ _ _ _ _ _ _ _ _); discriminate.
      * intros i w0 w0' Hw0 Hbody. cbv beta zeta in Hbody.
        destruct (reachedLimit est w0); [discriminate|].
        destruct (collectBranchDataRecursive _ _ _ _ _ _ _ _ _) as [w2|] eqn:Hrec;
          [|discriminate].
        injection Hbody as <-.
        eapply IH; [| |exact Hrec].
        -- apply Args_child; assumption.
        -- apply (childArguments_inv rng config Inv Inv_draw). exact Hw0.
      * apply Inv_push_branch; assumption.
Qed.

End CallInvariant.

(** With [fuel >= depth_bound config], the generation returns the final
    state of the recursion, which satisfies every invariant of the calls
    that the empty state satisfies. *)
Lemma generateTreeMatrices_inv_at (rng : nat -> Q) (fuel : nat) (config : Config)
    (Args : Z -> Matrix4 -> Q -> Q -> Prop) (Inv : World -> Prop) :
  (depth_bound config <= fuel)%nat ->
  Args 0 newMatrix4 (initialLength config ?? 10%Q)
    (initialRadius config ?? ((initialLength config ?? 10%Q) / 15)%Q) ->
  Inv (mkWorld [] [] 0) ->
  (forall level parentMatrix length radius w w',
     Args level parentMatrix length radius ->
     Inv w ->
     collectBranchDataRecursive rng fuel config
       (estimateMaxInstances config default_estimateFactor)
       level parentMatrix length radius w = Some w' ->
     Inv w') ->
  exists w,
    Inv w /\
    generateTreeMatrices rng fuel (Some config) =
    Some (mkTreeMatrices (branchMatricesArray w) (leafMatricesArray w),
          [console_log_generated (array_length (branchMatricesArray w))
                                 (array_length (leafMatricesArray w))]).
Proof.
  intros Hfuel Hargs H0 Hstep.
  destruct (collectBranchDataRecursive_returns rng config
              (estimateMaxInstances config default_estimateFactor) fuel 0
              newMatrix4 (initialLength config ?? 10%Q)
              (initialRadius config ?? ((initialLength config ?? 10%Q) / 15)%Q)
              (mkWorld [] [] 0)) as [w Hw].
  { unfold depth_bound in Hfuel. rewrite Z.sub_0_r. lia. }
  exists w. split.
  - eapply Hstep; [exact Hargs|exact H0|exact Hw].
  - apply generateTreeMatrices_Some. exact Hw.
Qed.

(** * Leaves *)

(** [addLeaves] pushes the leaf at the base and the leaf at the tip. *)
Lemma addLeaves_pair (rng : nat -> Q) (config : Config) (level : Z)
    (parentMatrix : Matrix4) (length radius : Q) (w : World) :
  exists eBase eTip,
    leafMatricesArray (addLeaves rng config level parentMatrix length radius w) =
    leafMatricesArray w ++
      [mkEmitted level length radius (leafMatrixAt config parentMatrix eBase);
       mkEmitted level length radius
         (leafMatrixAt config
            (multiplyMatrices parentMatrix (makeTranslation 0%Q length 0%Q))
            eTip)].
Proof.
  eexists. eexists.
  unfold addLeaves, randomQuat, Math_random, push_leaf; simpl.
  rewrite <- app_assoc. reflexivity.
Qed.

(** X1. Every leaf of the result was pushed by a call that is terminal by
    depth, length or radius, at a level from 1 to [maxDepth]: a segment
    that is cut by the budget only gets no leaves. *)
Theorem leaves_at_terminal_segments (rng : nat -> Q) (fuel : nat)
    (config : Config) :
  (depth_bound config <= fuel)%nat ->
  exists result console,
    generateTreeMatrices rng fuel (Some config) = Some (result, console) /\
    Forall (fun leaf =>
              isTerminal config (em_level leaf) (em_length leaf)
                (em_radius leaf) = true /\
              1 <= em_level leaf <= maxDepth config ?? 5)
           (leafMatrices result).
Proof.
  intros Hfuel.
  destruct (generateTreeMatrices_inv_at rng fuel config
              (fun level _ _ _ => level <= Z.max 0 (maxDepth config ?? 5))
              (fun w => Forall (fun leaf =>
                          isTerminal config (em_level leaf) (em_length leaf)
                            (em_radius leaf) = true /\
                          1 <= em_level leaf <= maxDepth config ?? 5)
                        (leafMatricesArray w)))
    as (w & Hw & Hgen).
  - exact Hfuel.
  - lia.
  - constructor.
  - apply collectBranchDataRecursive_inv_at.
    + intros level parentMatrix length radius i w Hlevel Hterm.
      apply isTerminal_false in Hterm. lia.
    + intros w H. exact H.
    + intros level parentMatrix length radius w _ H _ _. exact H.
    + intros level parentMatrix length radius w Hlevel H Hterm Hpos _.
      destruct (addLeaves_leaves rng config level parentMatrix length radius w)
        as (m1 & m2 & ->).
      apply Forall_app. split; [exact H|].
      repeat constructor; simpl; try exact Hterm; lia.
  - eexists. eexists. split; [exact Hgen|exact Hw].
Qed.

Lemma leaves_at_terminal_segments_witness :
  exists result console,
    generateTreeMatrices pinned 2 (Some depth1_config) = Some (result, console) /\
    Forall (fun leaf =>
              isTerminal depth1_config (em_level leaf) (em_length leaf)
                (em_radius leaf) = true /\
              1 <= em_level leaf <= maxDepth depth1_config ?? 5)
           (leafMatrices result).
Proof.
  apply (leaves_at_terminal_segments pinned 2 depth1_config). vm_compute. lia.
Defined.

(** X2. The leaf array of the result is a sequence of pairs: the leaf at
    the base of a terminal segment and the leaf at its tip, each rotated by
    its own Euler angles and scaled by [leafSize] on the three axes. *)
Theorem leaves_are_base_tip_pairs (rng : nat -> Q) (fuel : nat)
    (config : Config) :
  (depth_bound config <= fuel)%nat ->
  exists result console,
    generateTreeMatrices rng fuel (Some config) = Some (result, console) /\
    leaf_pairs config (leafMatrices result).
Proof.
  intros Hfuel.
  destruct (generateTreeMatrices_inv rng fuel config
              (fun w => leaf_pairs config (leafMatricesArray w)))
    as (w & Hw & Hgen).
  - exact Hfuel.
  - constructor.
  - apply collectBranchDataRecursive_inv.
    + intros w H. exact H.
    + intros level parentMatrix length radius w H _ _. exact H.
    + intros level parentMatrix length radius w H _ _ _.
      destruct (addLeaves_pair rng config level parentMatrix length radius w)
        as (eBase & eTip & ->).
      apply leaf_pairs_push. exact H.
  - eexists. eexists. split; [exact Hgen|exact Hw].
Qed.

Lemma leaves_are_base_tip_pairs_witness :
  exists result console,
    generateTreeMatrices pinned 2 (Some depth1_config) = Some (result, console) /\
    leaf_pairs depth1_config (leafMatrices result).
Proof.
  apply (leaves_are_base_tip_pairs pinned 2 depth1_config). vm_compute. lia.
Defined.

(** * Branches *)

(** In a call that is not terminal the clamp [Math.max(radius, minRadius)]
    keeps the radius. *)
Lemma Math_max_not_terminal (config : Config) (level : Z) (length radius : Q) :
  isTerminal config level length radius = false ->
  (Math_max radius (minRadius config ?? (1 # 10)) == radius)%Q /\
  (minRadius config ?? (1 # 10)
   <= Math_max radius (minRadius config ?? (1 # 10)))%Q.
Proof.
  intros Hterm. apply isTerminal_false in Hterm. destruct Hterm as (_ & _ & Hr).
  unfold Math_max.
  destruct (Qle_bool radius (minRadius config ?? (1 # 10))) eqn:Hle.
  - apply Qle_bool_iff in Hle. split; [|apply Qle_refl].
    apply Qle_antisym; assumption.
  - split; [reflexivity|exact Hr].
Qed.

(** The base matrix of a child is the base matrix of its parent, moved to
    the tip of the parent and rotated. *)
Lemma childOf_rigid (rng : nat -> Q) (config : Config) (parentMatrix : Matrix4)
    (length radius : Q) (i : Z) (w : World) :
  rigid parentMatrix ->
  rigid (fst (fst (fst (childOf rng config parentMatrix length radius i w)))).
Proof.
  intros H. unfold childOf, childArguments, Math_random; simpl.
  repeat constructor. exact H.
Qed.

(** X3. With a positive [minRadius], every branch matrix of the result is
    the product of a matrix made of translations and rotations only and of
    the local matrix [translation(0, length / 2, 0) * scale(2 * radius,
    length, 2 * radius)], where the scale is positive on the three axes
    and the clamped radius is the radius of the segment. *)
Theorem branches_have_positive_scale (rng : nat -> Q) (fuel : nat)
    (config : Config) :
  (0 < minRadius config ?? (1 # 10))%Q ->
  (depth_bound config <= fuel)%nat ->
  exists result console,
    generateTreeMatrices rng fuel (Some config) = Some (result, console) /\
    Forall (branch_shape config) (branchMatrices result).
Proof.
  intros Hmin Hfuel.
  destruct (generateTreeMatrices_inv_at rng fuel config
              (fun _ parentMatrix _ _ => rigid parentMatrix)
              (fun w => Forall (branch_shape config) (branchMatricesArray w)))
    as (w & Hw & Hgen).
  - exact Hfuel.
  - constructor.
  - constructor.
  - apply collectBranchDataRecursive_inv_at.
    + intros level parentMatrix length radius i w H _.
      apply childOf_rigid. exact H.
    + intros w H. exact H.
    + intros level parentMatrix length radius w Hrigid H Hterm _.
      cbn [push_branch branchMatricesArray].
      apply Forall_app. split; [exact H|].
      constructor; [|constructor].
      destruct (Math_max_not_terminal config level length radius Hterm)
        as [Heq Hge].
      apply isTerminal_false in Hterm. destruct Hterm as (_ & Hlen & _).
      unfold branch_shape; cbn [em_radius em_length em_matrix].
      split; [exists parentMatrix; split; [exact Hrigid|reflexivity]|].
      split; [exact Heq|]. split.
      * apply Qmult_lt_0_compat; [|reflexivity].
        eapply Qlt_le_trans; [exact Hmin|exact Hge].
      * eapply Qlt_trans; [|exact Hlen]. reflexivity.
    + intros level parentMatrix length radius w _ H _ _ _.
      rewrite addLeaves_branches. exact H.
  - eexists. eexists. split; [exact Hgen|exact Hw].
Qed.

Lemma branches_have_positive_scale_witness :
  exists result console,
    generateTreeMatrices pinned 2 (Some depth1_config) = Some (result, console) /\
    Forall (branch_shape depth1_config) (branchMatrices result).
Proof.
  apply (branches_have_positive_scale pinned 2 depth1_config).
  - reflexivity.
  - vm_compute. lia.
Defined.

(** X4. Every branch of the result at level [l] has the radius
    [initialRadius * radiusFactor ^ l]: no variance is applied to the
    radius and the clamp to [minRadius] never changes it.  With C6, a
    branch exists at level [l] only if this radius is at least
    [minRadius]. *)
Theorem branch_radius_by_level (rng : nat -> Q) (fuel : nat) (config : Config) :
  (depth_bound config <= fuel)%nat ->
  exists result console,
    generateTreeMatrices rng fuel (Some config) = Some (result, console) /\
    Forall (fun branch =>
              tapered config branch /\
              (minRadius config ?? (1 # 10) <= em_radius branch)%Q)
           (branchMatrices result) /\
    Forall (tapered config) (leafMatrices result).
Proof.
  intros Hfuel.
  destruct (generateTreeMatrices_inv_at rng fuel config
              (fun level _ _ radius =>
                 tapered config (mkEmitted level 0%Q radius newMatrix4))
              (fun w =>
                 Forall (fun branch =>
                           tapered config branch /\
                           (minRadius config ?? (1 # 10) <= em_radius branch)%Q)
                        (branchMatricesArray w) /\
                 Forall (tapered config) (leafMatricesArray w)))
    as (w & Hw & Hgen).
  - exact Hfuel.
  - split; simpl; [lia|]. rewrite Qmult_1_r. reflexivity.
  - split; constructor.
  - apply collectBranchDataRecursive_inv_at.
    + intros level parentMatrix length radius i w [Hlevel Hrad] Hterm.
      cbn [em_level em_radius] in *.
      destruct (Math_max_not_terminal config level length radius Hterm)
        as [Heq _].
      split; cbn [em_level em_radius]; [lia|].
      unfold childOf, childArguments, Math_random; cbn [fst snd].
      rewrite Heq, Hrad, Qpower_plus' by lia.
      rewrite Qpower_1_r. ring.
    + intros w H. exact H.
    + intros level parentMatrix length radius w Hargs [Hb Hl] Hterm _.
      split; [|exact Hl].
      cbn [push_branch branchMatricesArray].
      apply Forall_app. split; [exact Hb|].
      constructor; [|constructor].
      apply isTerminal_false in Hterm. destruct Hterm as (_ & _ & Hr).
      split; [exact Hargs|exact Hr].
    + intros level parentMatrix length radius w Hargs [Hb Hl] _ _ _.
      split; [rewrite addLeaves_branches; exact Hb|].
      destruct (addLeaves_leaves rng config level parentMatrix length radius w)
        as (m1 & m2 & ->).
      apply Forall_app. split; [exact Hl|].
      constructor; [exact Hargs|constructor; [exact Hargs|constructor]].
  - eexists. eexists. split; [exact Hgen|exact Hw].
Qed.

Lemma branch_radius_by_level_witness :
  exists result console,
    generateTreeMatrices pinned 2 (Some depth1_config) = Some (result, console) /\
    Forall (fun branch =>
              tapered depth1_config branch /\
              (minRadius depth1_config ?? (1 # 10) <= em_radius branch)%Q)
           (branchMatrices result) /\
    Forall (tapered depth1_config) (leafMatrices result).
Proof.
  apply (branch_radius_by_level pinned 2 depth1_config). vm_compute. lia.
Defined.

(** X5. With [lengthVariance = 0], every branch and every leaf of the
    result at level [l] has the length [initialLength * lengthFactor ^ l],
    whatever the random draws are. *)
Theorem length_by_level_without_variance (rng : nat -> Q) (fuel : nat)
    (config : Config) :
  (lengthVariance config ?? 10 == 0)%Q ->
  (depth_bound config <= fuel)%nat ->
  exists result console,
    generateTreeMatrices rng fuel (Some config) = Some (result, console) /\
    Forall (shrunk config) (branchMatrices result) /\
    Forall (shrunk config) (leafMatrices result).
Proof.
  intros Hvar Hfuel.
  destruct (generateTreeMatrices_inv_at rng fuel config
              (fun level _ length _ =>
                 0 <= level /\
                 shrunk config (mkEmitted level length 0%Q newMatrix4))
              (fun w =>
                 Forall (shrunk config) (branchMatricesArray w) /\
                 Forall (shrunk config) (leafMatricesArray w)))
    as (w & Hw & Hgen).
  - exact Hfuel.
  - split; [lia|]. unfold shrunk; simpl. rewrite Qmult_1_r. reflexivity.
  - split; constructor.
  - apply collectBranchDataRecursive_inv_at.
    + intros level parentMatrix length radius i w [Hlevel Hlen] _.
      unfold shrunk in *; cbn [em_level em_length] in *.
      split; [lia|].
      unfold childOf, childArguments, Math_random; cbn [fst snd].
      rewrite Hvar, Hlen, Qpower_plus' by lia.
      rewrite Qpower_1_r. field.
    + intros w H. exact H.
    + intros level parentMatrix length radius w [_ Hargs] [Hb Hl] _ _.
      split; [|exact Hl].
      cbn [push_branch branchMatricesArray].
      apply Forall_app. split; [exact Hb|].
      constructor; [exact Hargs|constructor].
    + intros level parentMatrix length radius w [_ Hargs] [Hb Hl] _ _ _.
      split; [rewrite addLeaves_branches; exact Hb|].
      destruct (addLeaves_leaves rng config level parentMatrix length radius w)
        as (m1 & m2 & ->).
      apply Forall_app. split; [exact Hl|].
      constructor; [exact Hargs|constructor; [exact Hargs|constructor]].
  - eexists. eexists. split; [exact Hgen|exact Hw].
Qed.

Lemma length_by_level_without_variance_witness :
  exists result console,
    generateTreeMatrices pinned 2 (Some depth1_config) = Some (result, console) /\
    Forall (shrunk depth1_config) (branchMatrices result) /\
    Forall (shrunk depth1_config) (leafMatrices result).
Proof.
  apply (length_by_level_without_variance pinned 2 depth1_config).
  - reflexivity.
  - vm_compute. lia.
Defined.

(** * The jitter of the children and the rotation of the leaves *)

Lemma jitter_factor (r lv : Q) :
  (0 <= r -> r < 1 -> 0 <= lv ->
   1 - lv / 100 <= 1 + (r - (1 # 2)) * 2 * (lv / 100) /\
   1 + (r - (1 # 2)) * 2 * (lv / 100) <= 1 + lv / 100)%Q.
Proof.
  intros H0 H1 Hlv.
  assert (Hp : (0 <= r * lv /\ r * lv <= lv)%Q) by (split; nra).
  assert (E : (lv / 100 == lv * (1 # 100))%Q) by reflexivity.
  rewrite !E. split; nra.
Qed.

(** X6. With draws in [[0, 1)] and variances that are not negative, a
    child is tilted by [branchAngle] within [angleVariance] degrees, is
    placed at [angleStep * i] within 20% of [angleStep], has the length
    [baseNextLength] within [lengthVariance] percent and the radius
    [baseNextRadius], and takes three draws. *)
Theorem child_jitter_bounds (rng : nat -> Q) (config : Config)
    (childBaseMatrix : Matrix4) (baseNextLength baseNextRadius angleStep : Q)
    (i : Z) (w : World) :
  (forall n, 0 <= rng n /\ rng n < 1)%Q ->
  (0 <= lengthVariance config ?? 10)%Q ->
  (0 <= angleVariance config ?? 10)%Q ->
  (0 <= baseNextLength)%Q ->
  (0 <= angleStep)%Q ->
  exists tilt spread nextLength w',
    childArguments rng config childBaseMatrix baseNextLength baseNextRadius
      angleStep i w =
    ((multiplyMatrices childBaseMatrix
        (makeRotationFromQuaternion
           (multiplyQuaternions
              (setFromAxisAngle (mkVector3 0 1 0) (degToRad spread))
              (setFromAxisAngle (mkVector3 1 0 0) (degToRad tilt)))),
      nextLength, baseNextRadius), w') /\
    draws w' = (draws w + 3)%nat /\
    (branchAngle config ?? 30 - angleVariance config ?? 10 <= tilt
     /\ tilt <= branchAngle config ?? 30 + angleVariance config ?? 10)%Q /\
    (angleStep * inject_Z i - angleStep * (2 # 10) <= spread
     /\ spread <= angleStep * inject_Z i + angleStep * (2 # 10))%Q /\
    (baseNextLength * (1 - (lengthVariance config ?? 10) / 100) <= nextLength
     /\ nextLength
        <= baseNextLength * (1 + (lengthVariance config ?? 10) / 100))%Q.
Proof.
  intros Hrng Hlv Hav Hlen Hstep.
  eexists. eexists. eexists. eexists.
  split; [unfold childArguments, Math_random; cbn; reflexivity|].
  cbn [draws].
  destruct (Hrng (draws w)) as [H1 H1'].
  destruct (Hrng (S (draws w))) as [H2 H2'].
  destruct (Hrng (S (S (draws w)))) as [H3 H3'].
  set (r1 := rng (draws w)) in *.
  set (r2 := rng (S (draws w))) in *.
  set (r3 := rng (S (S (draws w)))) in *.
  set (lv := lengthVariance config ?? 10%Q) in *.
  set (av := angleVariance config ?? 10%Q) in *.
  set (ba := branchAngle config ?? 30%Q).
  pose proof (jitter_factor r1 lv H1 H1' Hlv) as Hfactor.
  repeat split; try lia; nra.
Qed.

Lemma child_jitter_bounds_witness :
  exists tilt spread nextLength w',
    childArguments pinned depth1_config newMatrix4 7 (42 # 100) 180 1
      (mkWorld [] [] 0) =
    ((multiplyMatrices newMatrix4
        (makeRotationFromQuaternion
           (multiplyQuaternions
              (setFromAxisAngle (mkVector3 0 1 0) (degToRad spread))
              (setFromAxisAngle (mkVector3 1 0 0) (degToRad tilt)))),
      nextLength, 42 # 100), w') /\
    draws w' = 3%nat /\
    (branchAngle depth1_config ?? 30 - angleVariance depth1_config ?? 10 <= tilt
     /\ tilt <= branchAngle depth1_config ?? 30
                + angleVariance depth1_config ?? 10)%Q /\
    (180 * inject_Z 1 - 180 * (2 # 10) <= spread
     /\ spread <= 180 * inject_Z 1 + 180 * (2 # 10))%Q /\
    (7 * (1 - (lengthVariance depth1_config ?? 10) / 100) <= nextLength
     /\ nextLength <= 7 * (1 + (lengthVariance depth1_config ?? 10) / 100))%Q.
Proof.
  apply (child_jitter_bounds pinned depth1_config newMatrix4 7 (42 # 100) 180 1
           (mkWorld [] [] 0)).
  - intros n. split; vm_compute; congruence.
  - vm_compute. congruence.
  - vm_compute. congruence.
  - vm_compute. congruence.
  - vm_compute. congruence.
Defined.

Lemma scaled_draw_range (r p : Q) :
  (0 <= r -> r < 1 -> 0 < p -> 0 <= r * p /\ r * p < p)%Q.
Proof. intros H0 H1 Hp. split; nra. Qed.

(** The two leaves of [addLeaves], with the angles of their rotations. *)
Lemma addLeaves_angles (rng : nat -> Q) (config : Config) (level : Z)
    (parentMatrix : Matrix4) (length radius : Q) (w : World) :
  leafMatricesArray (addLeaves rng config level parentMatrix length radius w) =
  leafMatricesArray w ++
    [mkEmitted level length radius
       (leafMatrixAt config parentMatrix
          (mkEuler (rng (draws w) * Math_PI)
             (rng (S (draws w)) * Math_PI * 2)
             (rng (S (S (draws w))) * Math_PI)));
     mkEmitted level length radius
       (leafMatrixAt config
          (multiplyMatrices parentMatrix (makeTranslation 0%Q length 0%Q))
          (mkEuler (rng (S (S (S (draws w)))) * Math_PI)
             (rng (S (S (S (S (draws w))))) * Math_PI * 2)
             (rng (S (S (S (S (S (draws w)))))) * Math_PI)))].
Proof.
  unfold addLeaves, randomQuat, Math_random, push_leaf; simpl.
  rewrite <- app_assoc. reflexivity.
Qed.

(** X7. With draws in [[0, 1)], every leaf matrix of the result is rotated
    by Euler angles in [[0, pi)], [[0, 2 pi)] and [[0, pi)]. *)
Theorem leaf_rotations_in_range (rng : nat -> Q) (fuel : nat) (config : Config) :
  (forall n, 0 <= rng n /\ rng n < 1)%Q ->
  (depth_bound config <= fuel)%nat ->
  exists result console,
    generateTreeMatrices rng fuel (Some config) = Some (result, console) /\
    Forall (leaf_rotation_in_range config) (leafMatrices result).
Proof.
  intros Hrng Hfuel.
  destruct (generateTreeMatrices_inv rng fuel config
              (fun w => Forall (leaf_rotation_in_range config)
                          (leafMatricesArray w)))
    as (w & Hw & Hgen).
  - exact Hfuel.
  - constructor.
  - apply collectBranchDataRecursive_inv.
    + intros w H. exact H.
    + intros level parentMatrix length radius w H _ _. exact H.
    + intros level parentMatrix length radius w H _ _ _.
      rewrite addLeaves_angles.
      assert (Hpi : (0 < Math_PI)%Q) by reflexivity.
      assert (Hpi2 : (0 < Math_PI * 2)%Q) by reflexivity.
      apply Forall_app. split; [exact H|].
      constructor; [|constructor; [|constructor]].
      * eexists. eexists. eexists. eexists. split; [reflexivity|].
        cbn [em_matrix].
        repeat split;
          try (apply scaled_draw_range; solve [apply Hrng | assumption]).
        -- rewrite <- Qmult_assoc.
           apply scaled_draw_range; solve [apply Hrng | assumption].
        -- rewrite <- Qmult_assoc.
           apply scaled_draw_range; solve [apply Hrng | assumption].
      * eexists. eexists. eexists. eexists. split; [reflexivity|].
        repeat split;
          try (apply scaled_draw_range; solve [apply Hrng | assumption]).
        -- rewrite <- Qmult_assoc.
           apply scaled_draw_range; solve [apply Hrng | assumption].
        -- rewrite <- Qmult_assoc.
           apply scaled_draw_range; solve [apply Hrng | assumption].
  - eexists. eexists. split; [exact Hgen|exact Hw].
Qed.

Lemma leaf_rotations_in_range_witness :
  exists result console,
    generateTreeMatrices pinned 2 (Some depth1_config) = Some (result, console) /\
    Forall (leaf_rotation_in_range depth1_config) (leafMatrices result).
Proof.
  apply (leaf_rotations_in_range pinned 2 depth1_config).
  - intros n. split; vm_compute; congruence.
  - vm_compute. lia.
Defined.

(** * The size of the tree *)

Lemma fold_right_add_scale (b : Z) (l : list Z) :
  fold_right Z.add 0 (map (Z.mul b) l) = b * fold_right Z.add 0 l.
Proof. induction l as [|x l IH]; simpl; [lia|]. rewrite IH. lia. Qed.

Lemma geometric_count_neg (b d : Z) : d < 0 -> geometric_count b d = 0.
Proof.
  intros Hd. unfold geometric_count.
  replace (Z.to_nat (d + 1)) with 0%nat by lia. reflexivity.
Qed.

(** A full tree of depth [d]: the root and [b] full trees of depth
    [d - 1]. *)
Lemma geometric_count_root (b d : Z) :
  0 <= d -> geometric_count b d = 1 + b * geometric_count b (d - 1).
Proof.
  intros Hd. unfold geometric_count.
  replace (Z.to_nat (d + 1)) with (S (Z.to_nat d)) by lia.
  replace (Z.to_nat (d - 1 + 1)) with (Z.to_nat d) by lia.
  cbn [seq map fold_right]. rewrite <- seq_shift, map_map.
  rewrite <- fold_right_add_scale, map_map. f_equal. f_equal.
  apply map_ext. intros i.
  replace (Z.of_nat (S i)) with (Z.succ (Z.of_nat i)) by lia.
  rewrite Z.pow_succ_r by lia. reflexivity.
Qed.

(** A full tree of depth [d]: a full tree of depth [d - 1] and the
    [b ^ d] nodes of the last level. *)
Lemma geometric_count_last (b d : Z) :
  0 <= d -> geometric_count b d = geometric_count b (d - 1) + b ^ d.
Proof.
  intros Hd. unfold geometric_count.
  replace (Z.to_nat (d + 1)) with (S (Z.to_nat d)) by lia.
  replace (Z.to_nat (d - 1 + 1)) with (Z.to_nat d) by lia.
  rewrite seq_S, map_app, fold_right_app. cbn [map fold_right Nat.add].
  rewrite Z2Nat.id by lia.
  generalize (seq 0 (Z.to_nat d)). intros l.
  induction l as [|x l IH]; simpl; lia.
Qed.

Lemma geometric_count_nonneg (b d : Z) : 0 <= b -> 0 <= geometric_count b d.
Proof.
  intros Hb. unfold geometric_count.
  generalize (seq 0 (Z.to_nat (d + 1))). intros l.
  induction l as [|x l IH]; simpl; [lia|].
  assert (0 <= b ^ Z.of_nat x) by (apply Z.pow_nonneg; exact Hb). lia.
Qed.

Lemma geometric_count_pos (b d : Z) : 0 <= b -> 0 <= d -> 1 <= geometric_count b d.
Proof.
  intros Hb Hd. rewrite geometric_count_root by exact Hd.
  pose proof (geometric_count_nonneg b (d - 1) Hb). nia.
Qed.

(** The count of the estimator is the count of the specification for the
    depth and the branches that [||] reads. *)
Lemma estimateMaxInstances_count (config : Config) (f : Q) :
  estimateMaxInstances config f =
  Qceiling (inject_Z (geometric_count (numBranches config |?| 2)
                        (maxDepth config |?| 5)) * f * (3 # 2)).
Proof.
  rewrite estimateMaxInstances_unfold. unfold geometric_count.
  change 0 with (Z.of_nat 0) at 1. rewrite for_upto_sum. reflexivity.
Qed.

(** The estimate is at least 2.25 times the count. *)
Lemma estimateMaxInstances_lower (config : Config) :
  9 * geometric_count (numBranches config |?| 2) (maxDepth config |?| 5)
  <= 4 * estimateMaxInstances config default_estimateFactor.
Proof.
  rewrite estimateMaxInstances_count.
  set (c := geometric_count _ _).
  pose proof (Qle_ceiling (inject_Z c * default_estimateFactor * (3 # 2))) as H.
  set (e := Qceiling _) in *.
  assert (H' : (inject_Z (9 * c) <= inject_Z (4 * e))%Q).
  { rewrite !inject_Z_mult. unfold default_estimateFactor in H.
    change (inject_Z 9) with (9 # 1). change (inject_Z 4) with (4 # 1).
    lra. }
  rewrite <- Zle_Qle in H'. exact H'.
Qed.

Lemma for_break_bound (measure : World -> Z) (c : Z)
    (body : Z -> World -> option (LoopStep World)) :
  0 <= c ->
  (forall i w w', body i w = Some (Break w') -> measure w' <= measure w) ->
  (forall i w w', body i w = Some (Next w') -> measure w' <= measure w + c) ->
  forall n i w w',
    for_break n i body w = Some w' ->
    measure w' <= measure w + Z.of_nat n * c.
Proof.
  intros Hc Hbreak Hnext n; induction n as [|n IH]; intros i w w' Hrun;
    simpl in Hrun.
  - injection Hrun as <-. lia.
  - destruct (body i w) as [[s|s]|] eqn:Hbody; [| |discriminate].
    + injection Hrun as <-. specialize (Hbreak i w s Hbody). nia.
    + specialize (Hnext i w s Hbody). specialize (IH (i + 1) s w' Hrun). nia.
Qed.

Lemma childOf_branches rng config parentMatrix length radius i w :
  branchMatricesArray (snd (childOf rng config parentMatrix length radius i w))
  = branchMatricesArray w.
Proof. reflexivity. Qed.

Lemma childOf_leaves rng config parentMatrix length radius i w :
  leafMatricesArray (snd (childOf rng config parentMatrix length radius i w))
  = leafMatricesArray w.
Proof. reflexivity. Qed.

(** A call at [level] pushes at most the branches of a full tree of depth
    [maxDepth - level - 1] and two leaves for each of its
    [numBranches ^ (maxDepth - level)] terminal segments. *)
Lemma collectBranchDataRecursive_counts (rng : nat -> Q) (config : Config)
    (est : Z) (fuel : nat) :
  1 <= numBranches config ?? 2 ->
  forall level parentMatrix length radius w w',
    collectBranchDataRecursive rng fuel config est level parentMatrix
      length radius w = Some w' ->
    array_length (branchMatricesArray w')
    <= array_length (branchMatricesArray w)
       + geometric_count (numBranches config ?? 2)
           (maxDepth config ?? 5 - level - 1) /\
    array_length (leafMatricesArray w')
    <= array_length (leafMatricesArray w)
       + 2 * (numBranches config ?? 2) ^ Z.max 0 (maxDepth config ?? 5 - level).
Proof.
  intros Hb.
  set (b := numBranches config ?? 2) in *.
  set (D := maxDepth config ?? 5).
  induction fuel as [|fuel IH];
    intros level parentMatrix length radius w w' Hrun; [discriminate|].
  rewrite collectBranchDataRecursive_step in Hrun.
  assert (Hg : 0 <= geometric_count b (D - level - 1))
    by (apply geometric_count_nonneg; lia).
  assert (Hp : 0 < b ^ Z.max 0 (D - level))
    by (apply Z.pow_pos_nonneg; lia).
  destruct (isTerminal config level length radius) eqn:Hterm;
    cbn [orb andb] in Hrun.
  - destruct (level >? 0).
    + destruct (array_length (leafMatricesArray w) <? est - 1);
        injection Hrun as <-; [|lia].
      rewrite addLeaves_branches.
      destruct (addLeaves_leaves rng config level parentMatrix length radius w)
        as (m1 & m2 & ->).
      rewrite array_length_app. change (array_length [_; _]) with 2. lia.
    + injection Hrun as <-. lia.
  - destruct (reachedLimit est w); [injection Hrun as <-; lia|].
    apply isTerminal_false in Hterm. destruct Hterm as (Hlevel & _ & _).
    fold D in Hlevel.
    assert (Hchild : forall i w0 w0',
              (if reachedLimit est w0 then Some (Break w0)
               else
                 match
                   collectBranchDataRecursive rng fuel config est (level + 1)
                     (fst (fst (fst (childOf rng config parentMatrix length
                                       radius i w0))))
                     (snd (fst (fst (childOf rng config parentMatrix length
                                       radius i w0))))
                     (snd (fst (childOf rng config parentMatrix length
                                  radius i w0)))
                     (snd (childOf rng config parentMatrix length radius i w0))
                 with
                 | Some w' => Some (Next w')
                 | None => None
                 end) = Some (Next w0') ->
              array_length (branchMatricesArray w0')
              <= array_length (branchMatricesArray w0)
                 + geometric_count b (D - (level + 1) - 1) /\
              array_length (leafMatricesArray w0')
              <= array_length (leafMatricesArray w0)
                 + 2 * b ^ Z.max 0 (D - (level + 1))).
    { intros i w0 w0' Hbody.
      destruct (reachedLimit est w0); [discriminate|].
      destruct (collectBranchDataRecursive _ _ _ _ _ _ _ _ _) as [w2|] eqn:Hrec;
        [|discriminate].
      injection Hbody as <-.
      apply IH in Hrec. rewrite childOf_branches, childOf_leaves in Hrec.
      exact Hrec. }
    assert (Hstop : forall i w0 w0',
              (if reachedLimit est w0 then Some (Break w0)
               else
                 match
                   collectBranchDataRecursive rng fuel config est (level + 1)
                     (fst (fst (fst (childOf rng config parentMatrix length
                                       radius i w0))))
                     (snd (fst (fst (childOf rng config parentMatrix length
                                       radius i w0))))
                     (snd (fst (childOf rng config parentMatrix length
                                  radius i w0)))
                     (snd (childOf rng config parentMatrix length radius i w0))
                 with
                 | Some w' => Some (Next w')
                 | None => None
                 end) = Some (Break w0') -> w0' = w0).
    { intros i w0 w0' Hbody.
      destruct (reachedLimit est w0); [injection Hbody as <-; reflexivity|].
      destruct (collectBranchDataRecursive _ _ _ _ _ _ _ _ _); discriminate. }
    assert (Hgc : 0 <= geometric_count b (D - (level + 1) - 1))
      by (apply geometric_count_nonneg; lia).
    assert (Hpc : 0 <= b ^ Z.max 0 (D - (level + 1)))
      by (apply Z.pow_nonneg; lia).
    pose proof (for_break_bound (fun w => array_length (branchMatricesArray w))
                  (geometric_count b (D - (level + 1) - 1)) _ Hgc
                  (fun i w0 w0' H => Z.eq_le_incl _ _
                     (f_equal (fun w => array_length (branchMatricesArray w))
                        (Hstop i w0 w0' H)))
                  (fun i w0 w0' H => proj1 (Hchild i w0 w0' H))
                  _ _ _ _ Hrun) as Hbranches.
    pose proof (for_break_bound (fun w => array_length (leafMatricesArray w))
                  (2 * b ^ Z.max 0 (D - (level + 1))) _ ltac:(lia)
                  (fun i w0 w0' H => Z.eq_le_incl _ _
                     (f_equal (fun w => array_length (leafMatricesArray w))
                        (Hstop i w0 w0' H)))
                  (fun i w0 w0' H => proj2 (Hchild i w0 w0' H))
                  _ _ _ _ Hrun) as Hleaves.
    cbv beta in Hbranches, Hleaves.
    cbn [push_branch branchMatricesArray leafMatricesArray] in Hbranches, Hleaves.
    rewrite array_length_app in Hbranches.
    change (array_length [_]) with 1 in Hbranches.
    rewrite Z2Nat.id in Hbranches, Hleaves by lia.
    rewrite (geometric_count_root b (D - level - 1)) by lia.
    replace (D - level - 1 - 1) with (D - (level + 1) - 1) by lia.
    replace (Z.max 0 (D - level)) with (Z.succ (Z.max 0 (D - (level + 1))))
      by lia.
    rewrite Z.pow_succ_r by lia.
    split; lia.
Qed.

(** With [fuel >= depth_bound config], the first call returns and the
    generation returns the arrays of its final state. *)
Lemma generateTreeMatrices_run (rng : nat -> Q) (fuel : nat) (config : Config) :
  (depth_bound config <= fuel)%nat ->
  exists w,
    collectBranchDataRecursive rng fuel config
      (estimateMaxInstances config default_estimateFactor) 0 newMatrix4
      (initialLength config ?? 10%Q)
      (initialRadius config ?? ((initialLength config ?? 10%Q) / 15)%Q)
      (mkWorld [] [] 0) = Some w /\
    generateTreeMatrices rng fuel (Some config) =
    Some (mkTreeMatrices (branchMatricesArray w) (leafMatricesArray w),
          [console_log_generated (array_length (branchMatricesArray w))
                                 (array_length (leafMatricesArray w))]).
Proof.
  intros Hfuel.
  destruct (collectBranchDataRecursive_returns rng config
              (estimateMaxInstances config default_estimateFactor) fuel 0
              newMatrix4 (initialLength config ?? 10%Q)
              (initialRadius config ?? ((initialLength config ?? 10%Q) / 15)%Q)
              (mkWorld [] [] 0)) as [w Hw].
  { unfold depth_bound in Hfuel. rewrite Z.sub_0_r. lia. }
  exists w. split; [exact Hw|].
  apply generateTreeMatrices_Some. exact Hw.
Qed.

(** X8. With [numBranches >= 1], the result has at most the branches of a
    full tree of depth [maxDepth - 1], that is the sum of
    [numBranches ^ i] for [i = 0 .. maxDepth - 1], and at most two leaves
    for each of the [numBranches ^ maxDepth] segments of the last level,
    whatever the budget is. *)
Theorem tree_size_bound (rng : nat -> Q) (fuel : nat) (config : Config) :
  1 <= numBranches config ?? 2 ->
  (depth_bound config <= fuel)%nat ->
  exists result console,
    generateTreeMatrices rng fuel (Some config) = Some (result, console) /\
    array_length (branchMatrices result)
    <= geometric_count (numBranches config ?? 2) (maxDepth config ?? 5 - 1) /\
    array_length (leafMatrices result)
    <= 2 * (numBranches config ?? 2) ^ Z.max 0 (maxDepth config ?? 5).
Proof.
  intros Hb Hfuel.
  destruct (generateTreeMatrices_run rng fuel config Hfuel) as (w & Hrec & Hgen).
  apply (collectBranchDataRecursive_counts rng config _ fuel Hb) in Hrec.
  cbn [branchMatricesArray leafMatricesArray] in Hrec.
  change (array_length []) with 0 in Hrec.
  rewrite Z.sub_0_r, !Z.add_0_l in Hrec.
  eexists. eexists. split; [exact Hgen|]. exact Hrec.
Qed.

Lemma tree_size_bound_witness :
  exists result console,
    generateTreeMatrices pinned 2 (Some depth1_config) = Some (result, console) /\
    array_length (branchMatrices result)
    <= geometric_count (numBranches depth1_config ?? 2)
         (maxDepth depth1_config ?? 5 - 1) /\
    array_length (leafMatrices result)
    <= 2 * (numBranches depth1_config ?? 2)
           ^ Z.max 0 (maxDepth depth1_config ?? 5).
Proof.
  apply (tree_size_bound pinned 2 depth1_config).
  - vm_compute. congruence.
  - vm_compute. lia.
Defined.

(** The two readings of the fields agree on the data model, except for
    [maxDepth = 0], which [||] replaces by 5. *)
Lemma well_formed_fields (config : Config) :
  well_formed config ->
  1 <= numBranches config ?? 2 /\
  numBranches config |?| 2 = numBranches config ?? 2 /\
  0 <= maxDepth config ?? 5 /\
  (1 <= maxDepth config ?? 5 /\
   maxDepth config |?| 5 = maxDepth config ?? 5 \/
   maxDepth config ?? 5 = 0 /\ maxDepth config |?| 5 = 5).
Proof.
  intros [Hd Hb].
  destruct (numBranches config) as [b|]; destruct (maxDepth config) as [d|];
    cbn [nullish falsy_or];
    try (specialize (Hb b eq_refl)); try (specialize (Hd d eq_refl)).
  - destruct b as [|p|p]; [lia| |lia].
    destruct d as [|q|q]; [| |lia];
      (split; [lia|]; split; [reflexivity|]; split; [lia|]).
    + right. split; reflexivity.
    + left. split; [lia|reflexivity].
  - destruct b as [|p|p]; [lia| |lia].
    split; [lia|]. split; [reflexivity|]. split; [lia|]. left. split; [lia|reflexivity].
  - destruct d as [|q|q]; [| |lia];
      (split; [lia|]; split; [reflexivity|]; split; [lia|]).
    + right. split; reflexivity.
    + left. split; [lia|reflexivity].
  - split; [lia|]. split; [reflexivity|]. split; [lia|]. left. split; [lia|reflexivity].
Qed.

(** On the data model the budget exceeds the size of the full tree: the
    limit on the branches and the limit on the leaves are out of reach. *)
Lemma estimate_exceeds_tree (config : Config) :
  well_formed config ->
  geometric_count (numBranches config ?? 2) (maxDepth config ?? 5 - 1)
  < estimateMaxInstances config default_estimateFactor /\
  2 * (numBranches config ?? 2) ^ Z.max 0 (maxDepth config ?? 5)
  < estimateMaxInstances config default_estimateFactor - 1.
Proof.
  intros Hwf.
  destruct (well_formed_fields config Hwf) as (Hb & Hbb & Hd & Hdd).
  pose proof (estimateMaxInstances_lower config) as Hest.
  rewrite Hbb in Hest.
  set (b := numBranches config ?? 2) in *.
  set (D := maxDepth config ?? 5) in *.
  set (est := estimateMaxInstances config default_estimateFactor) in *.
  replace (Z.max 0 D) with D by lia.
  destruct Hdd as [[HD Hdd] | [HD Hdd]]; rewrite Hdd in Hest.
  - rewrite geometric_count_last in Hest by lia.
    pose proof (geometric_count_pos b (D - 1) ltac:(lia) ltac:(lia)).
    assert (0 < b ^ D) by (apply Z.pow_pos_nonneg; lia).
    lia.
  - rewrite HD. rewrite geometric_count_neg by lia.
    rewrite geometric_count_root in Hest by lia.
    pose proof (geometric_count_pos b (5 - 1) ltac:(lia) ltac:(lia)).
    cbn. nia.
Qed.

(** X9. On the data model ([maxDepth >= 0], [numBranches >= 1]) the
    budget is never reached: the result has fewer branch matrices than the
    estimate and fewer leaf matrices than the estimate minus one, so no
    test of the limit succeeds during the generation and no branch or leaf
    is dropped. *)
Theorem budget_never_reached (rng : nat -> Q) (fuel : nat) (config : Config) :
  well_formed config ->
  (depth_bound config <= fuel)%nat ->
  exists result console,
    generateTreeMatrices rng fuel (Some config) = Some (result, console) /\
    reachedLimit (estimateMaxInstances config default_estimateFactor)
      (mkWorld (branchMatrices result) (leafMatrices result) 0) = false.
Proof.
  intros Hwf Hfuel.
  destruct (well_formed_fields config Hwf) as (Hb & _).
  destruct (generateTreeMatrices_run rng fuel config Hfuel) as (w & Hrec & Hgen).
  pose proof (collectBranchDataRecursive_counts rng config _ fuel Hb
                _ _ _ _ _ _ Hrec) as [Hbranches Hleaves].
  cbn [branchMatricesArray leafMatricesArray] in Hbranches, Hleaves.
  change (array_length []) with 0 in Hbranches, Hleaves.
  rewrite Z.sub_0_r, !Z.add_0_l in *.
  destruct (estimate_exceeds_tree config Hwf) as [Hbl Hll].
  eexists. eexists. split; [exact Hgen|].
  unfold reachedLimit.
  cbn [branchMatricesArray leafMatricesArray branchMatrices leafMatrices].
  apply orb_false_iff. rewrite !Z.geb_leb. split; apply Z.leb_gt; lia.
Qed.

Lemma budget_never_reached_witness :
  exists result console,
    generateTreeMatrices pinned 2 (Some depth1_config) = Some (result, console) /\
    reachedLimit (estimateMaxInstances depth1_config default_estimateFactor)
      (mkWorld (branchMatrices result) (leafMatrices result) 0) = false.
Proof.
  apply (budget_never_reached pinned 2 depth1_config).
  - split; intros v H; injection H as <-; lia.
  - vm_compute. lia.
Defined.

(** * The result does not depend on the budget *)

Lemma extends_refl (w : World) : extends w w.
Proof. exists [], []. rewrite !app_nil_r. auto. Qed.

Lemma extends_trans (w1 w2 w3 : World) :
  extends w1 w2 -> extends w2 w3 -> extends w1 w3.
Proof.
  intros (b1 & l1 & Hb1 & Hl1) (b2 & l2 & Hb2 & Hl2).
  exists (b1 ++ b2), (l1 ++ l2). rewrite Hb2, Hl2, Hb1, Hl1, !app_assoc. auto.
Qed.

Lemma reachedLimit_extends (est : Z) (w w' : World) :
  extends w w' -> reachedLimit est w' = false -> reachedLimit est w = false.
Proof.
  intros (bs & ls & Hb & Hl) H. apply reachedLimit_false in H.
  rewrite Hb, Hl, !array_length_app in H.
  assert (0 <= array_length bs) by (unfold array_length; lia).
  assert (0 <= array_length ls) by (unfold array_length; lia).
  unfold reachedLimit. apply orb_false_iff. rewrite !Z.geb_leb.
  split; apply Z.leb_gt; lia.
Qed.

Lemma childOf_extends rng config parentMatrix length radius i w :
  extends w (snd (childOf rng config parentMatrix length radius i w)).
Proof. exists [], []. rewrite !app_nil_r. auto. Qed.

(** A run that ends below the limits of two budgets is the same run for
    both: no test of a limit has succeeded on the way. *)
Lemma collectBranchDataRecursive_budget (rng : nat -> Q) (config : Config)
    (est est' : Z) (fuel : nat) :
  forall level parentMatrix length radius w w',
    collectBranchDataRecursive rng fuel config est level parentMatrix
      length radius w = Some w' ->
    reachedLimit est w' = false ->
    reachedLimit est' w' = false ->
    collectBranchDataRecursive rng fuel config est' level parentMatrix
      length radius w = Some w'.
Proof.
  induction fuel as [|fuel IH];
    intros level parentMatrix length radius w w' Hrun Hest Hest';
    [discriminate|].
  pose proof (collectBranchDataRecursive_extends _ _ _ _ _ _ _ _ _ _ Hrun)
    as Hext.
  pose proof (reachedLimit_extends est w w' Hext Hest) as Hw.
  pose proof (reachedLimit_extends est' w w' Hext Hest') as Hw'.
  rewrite collectBranchDataRecursive_step in Hrun |- *.
  rewrite Hw in Hrun. rewrite Hw'.
  destruct (isTerminal config level length radius) eqn:Hterm;
    cbn [orb andb] in Hrun |- *.
  - destruct (level >? 0); [|exact Hrun].
    apply reachedLimit_false in Hw. destruct Hw as [_ Hroom].
    apply Z.ltb_lt in Hroom. rewrite Hroom in Hrun.
    apply reachedLimit_false in Hw'. destruct Hw' as [_ Hroom'].
    apply Z.ltb_lt in Hroom'. rewrite Hroom'. exact Hrun.
  - clear Hext Hw Hw'.
    match type of Hrun with
    | for_break _ _ ?body _ = _ =>
        match goal with
        | |- for_break _ _ ?body' _ = _ =>
            assert (Hloop : forall n i w0,
                      for_break n i body w0 = Some w' ->
                      for_break n i body' w0 = Some w');
              [|apply Hloop; exact Hrun]
        end
    end.
    clear Hrun.
    induction n as [|n IHn];
      intros i w0 Hrun; cbn [for_break] in Hrun |- *; [exact Hrun|].
    destruct (reachedLimit est w0) eqn:Hlimit.
    + injection Hrun as <-. congruence.
    + destruct (collectBranchDataRecursive rng fuel config est (level + 1) _ _ _ _)
        as [w1|] eqn:Hrec; [|discriminate].
      assert (Hext1 : extends w1 w').
      { eapply (for_break_inv (extends w1)); [| |apply extends_refl|exact Hrun].
        - intros j s s' Hs Hbody. cbv beta zeta in Hbody.
          destruct (reachedLimit est s); [injection Hbody as <-; exact Hs|].
          destruct (collectBranchDataRecursive rng fuel config est (level + 1)
                      _ _ _ (snd (childOf rng config parentMatrix length radius j s)));
            discriminate.
        - intros j s s' Hs Hbody. cbv beta zeta in Hbody.
          destruct (reachedLimit est s); [discriminate|].
          destruct (collectBranchDataRecursive rng fuel config est (level + 1)
                      _ _ _ (snd (childOf rng config parentMatrix length radius j s)))
            as [s2|] eqn:Hs2;
            [|discriminate].
          injection Hbody as <-.
          apply collectBranchDataRecursive_extends in Hs2.
          eapply extends_trans; [exact Hs|].
          eapply extends_trans; [apply childOf_extends|exact Hs2]. }
      pose proof (reachedLimit_extends est w1 w' Hext1 Hest) as H1.
      pose proof (reachedLimit_extends est' w1 w' Hext1 Hest') as H1'.
      pose proof (collectBranchDataRecursive_extends _ _ _ _ _ _ _ _ _ _ Hrec)
        as Hext0.
      assert (H0' : reachedLimit est' w0 = false).
      { eapply reachedLimit_extends; [|exact H1'].
        eapply extends_trans; [apply childOf_extends|exact Hext0]. }
      rewrite H0'.
      rewrite (IH _ _ _ _ _ _ Hrec H1 H1').
      apply IHn. exact Hrun.
Qed.

Lemma reachedLimit_larger_budget (est est' : Z) (w : World) :
  est <= est' -> reachedLimit est w = false -> reachedLimit est' w = false.
Proof.
  intros Hle H. apply reachedLimit_false in H.
  unfold reachedLimit. apply orb_false_iff. rewrite !Z.geb_leb.
  split; apply Z.leb_gt; lia.
Qed.

(** X10. On the data model the result does not depend on the budget: the
    recursion run with any budget that is at least the estimate ends in
    the state in which it ends with the estimate. *)
Theorem result_independent_of_budget (rng : nat -> Q) (fuel : nat)
    (config : Config) (est' : Z) :
  well_formed config ->
  estimateMaxInstances config default_estimateFactor <= est' ->
  (depth_bound config <= fuel)%nat ->
  exists w,
    collectBranchDataRecursive rng fuel config
      (estimateMaxInstances config default_estimateFactor) 0 newMatrix4
      (initialLength config ?? 10%Q)
      (initialRadius config ?? ((initialLength config ?? 10%Q) / 15)%Q)
      (mkWorld [] [] 0) = Some w /\
    collectBranchDataRecursive rng fuel config est' 0 newMatrix4
      (initialLength config ?? 10%Q)
      (initialRadius config ?? ((initialLength config ?? 10%Q) / 15)%Q)
      (mkWorld [] [] 0) = Some w.
Proof.
  intros Hwf Hle Hfuel.
  destruct (well_formed_fields config Hwf) as (Hb & _).
  destruct (generateTreeMatrices_run rng fuel config Hfuel) as (w & Hrec & _).
  exists w. split; [exact Hrec|].
  pose proof (collectBranchDataRecursive_counts rng config _ fuel Hb
                _ _ _ _ _ _ Hrec) as [Hbranches Hleaves].
  cbn [branchMatricesArray leafMatricesArray] in Hbranches, Hleaves.
  change (array_length []) with 0 in Hbranches, Hleaves.
  rewrite Z.sub_0_r, !Z.add_0_l in *.
  destruct (estimate_exceeds_tree config Hwf) as [Hbl Hll].
  assert (Hbelow : reachedLimit
                     (estimateMaxInstances config default_estimateFactor) w
                   = false).
  { unfold reachedLimit. apply orb_false_iff. rewrite !Z.geb_leb.
    split; apply Z.leb_gt; lia. }
  eapply collectBranchDataRecursive_budget; [exact Hrec|exact Hbelow|].
  eapply reachedLimit_larger_budget; [exact Hle|exact Hbelow].
Qed.

Lemma result_independent_of_budget_witness :
  exists w,
    collectBranchDataRecursive pinned 2 depth1_config
      (estimateMaxInstances depth1_config default_estimateFactor) 0 newMatrix4
      (initialLength depth1_config ?? 10%Q)
      (initialRadius depth1_config
         ?? ((initialLength depth1_config ?? 10%Q) / 15)%Q)
      (mkWorld [] [] 0) = Some w /\
    collectBranchDataRecursive pinned 2 depth1_config 1000 0 newMatrix4
      (initialLength depth1_config ?? 10%Q)
      (initialRadius depth1_config
         ?? ((initialLength depth1_config ?? 10%Q) / 15)%Q)
      (mkWorld [] [] 0) = Some w.
Proof.
  apply (result_independent_of_budget pinned 2 depth1_config 1000).
  - split; intros v H; injection H as <-; lia.
  - vm_compute. congruence.
  - vm_compute. lia.
Defined.

(** * The root *)

(** A call that is not terminal and below the limit pushes its branch
    first. *)
Lemma collectBranchDataRecursive_pushes_first (rng : nat -> Q) (config : Config)
    (est : Z) (fuel : nat) (level : Z) (parentMatrix : Matrix4)
    (length radius : Q) (w w' : World) :
  isTerminal config level length radius = false ->
  reachedLimit est w = false ->
  collectBranchDataRecursive rng fuel config est level parentMatrix
    length radius w = Some w' ->
  extends (push_branch
             (mkEmitted level length radius
                (branchMatrix config parentMatrix length radius)) w) w'.
Proof.
  intros Hterm Hlimit Hrun. destruct fuel as [|fuel]; [discriminate|].
  rewrite collectBranchDataRecursive_step, Hterm, Hlimit in Hrun.
  cbn [orb] in Hrun.
  eapply (for_break_inv (extends _)); [| |apply extends_refl|exact Hrun].
  - intros j s s' Hs Hbody. cbv beta zeta in Hbody.
    destruct (reachedLimit est s); [injection Hbody as <-; exact Hs|].
    destruct (collectBranchDataRecursive rng fuel config est (level + 1)
                _ _ _ (snd (childOf rng config parentMatrix length radius j s)));
      discriminate.
  - intros j s s' Hs Hbody. cbv beta zeta in Hbody.
    destruct (reachedLimit est s); [discriminate|].
    destruct (collectBranchDataRecursive rng fuel config est (level + 1)
                _ _ _ (snd (childOf rng config parentMatrix length radius j s)))
      as [s2|] eqn:Hs2; [|discriminate].
    injection Hbody as <-.
    apply collectBranchDataRecursive_extends in Hs2.
    eapply extends_trans; [exact Hs|].
    eapply extends_trans; [apply childOf_extends|exact Hs2].
Qed.

(** X11. On the data model, the result is empty (no branch, no leaf)
    exactly when the trunk is terminal: [maxDepth = 0], or
    [initialLength <= 0.01], or [initialRadius < minRadius].  Otherwise the
    first branch matrix is the trunk, at level 0 with the initial length
    and radius on the identity matrix. *)
Theorem trunk_first_or_empty (rng : nat -> Q) (fuel : nat) (config : Config) :
  well_formed config ->
  (depth_bound config <= fuel)%nat ->
  exists result console,
    generateTreeMatrices rng fuel (Some config) = Some (result, console) /\
    if isTerminal config 0 (initialLength config ?? 10%Q)
         (initialRadius config ?? ((initialLength config ?? 10%Q) / 15)%Q)
    then result = mkTreeMatrices [] []
    else
      exists branches,
        branchMatrices result =
        mkEmitted 0 (initialLength config ?? 10%Q)
          (initialRadius config ?? ((initialLength config ?? 10%Q) / 15)%Q)
          (branchMatrix config newMatrix4 (initialLength config ?? 10%Q)
             (initialRadius config ?? ((initialLength config ?? 10%Q) / 15)%Q))
        :: branches.
Proof.
  intros Hwf Hfuel.
  destruct (generateTreeMatrices_run rng fuel config Hfuel) as (w & Hrec & Hgen).
  eexists. eexists. split; [exact Hgen|].
  destruct (isTerminal config 0 _ _) eqn:Hterm.
  - destruct fuel as [|fuel]; [discriminate|].
    rewrite collectBranchDataRecursive_step, Hterm in Hrec.
    cbn in Hrec. injection Hrec as <-. reflexivity.
  - destruct (estimate_exceeds_tree config Hwf) as [_ Hll].
    assert (0 < (numBranches config ?? 2) ^ Z.max 0 (maxDepth config ?? 5))
      by (apply Z.pow_pos_nonneg;
          [destruct (well_formed_fields config Hwf); lia|lia]).
    assert (Hlimit : reachedLimit
                       (estimateMaxInstances config default_estimateFactor)
                       (mkWorld [] [] 0) = false).
    { unfold reachedLimit. cbn [branchMatricesArray leafMatricesArray].
      change (array_length []) with 0.
      apply orb_false_iff. rewrite !Z.geb_leb. split; apply Z.leb_gt; lia. }
    destruct (collectBranchDataRecursive_pushes_first _ _ _ _ _ _ _ _ _ _
                Hterm Hlimit Hrec) as (bs & ls & Hb & _).
    exists bs. cbn [branchMatrices]. rewrite Hb. reflexivity.
Qed.

Lemma trunk_first_or_empty_witness :
  exists result console,
    generateTreeMatrices pinned 2 (Some depth1_config) = Some (result, console) /\
    if isTerminal depth1_config 0 (initialLength depth1_config ?? 10%Q)
         (initialRadius depth1_config
            ?? ((initialLength depth1_config ?? 10%Q) / 15)%Q)
    then result = mkTreeMatrices [] []
    else
      exists branches,
        branchMatrices result =
        mkEmitted 0 (initialLength depth1_config ?? 10%Q)
          (initialRadius depth1_config
             ?? ((initialLength depth1_config ?? 10%Q) / 15)%Q)
          (branchMatrix depth1_config newMatrix4
             (initialLength depth1_config ?? 10%Q)
             (initialRadius depth1_config
                ?? ((initialLength depth1_config ?? 10%Q) / 15)%Q))
        :: branches.
Proof.
  apply (trunk_first_or_empty pinned 2 depth1_config).
  - split; intros v H; injection H as <-; lia.
  - vm_compute. lia.
Defined.

(** * The editor and the generator module *)

(** One step of [Editor.collectBranchData], with the tests and the
    matrices of the generator module on the parameters of the editor. *)
Lemma Editor_collectBranchData_step (rng : nat -> Q) (fuel : nat)
    (config : Editor.EditorConfig) (est level : Z) (parentMatrix : Matrix4)
    (length radius : Q) (w : World) :
  Editor.collectBranchData rng (S fuel) config est level parentMatrix
    length radius w =
  if isTerminal (Editor.parameters config) level length radius
     || reachedLimit est w then
    if isTerminal (Editor.parameters config) level length radius
       && (level >? 0) then
      if array_length (leafMatricesArray w) <? est - 1
      then Some (addLeaves rng (Editor.parameters config) level parentMatrix
                   length radius w)
      else Some w
    else Some w
  else
    for_break (Z.to_nat (Editor.numBranches config)) 0
      (fun i w =>
         if array_length (branchMatricesArray w) >=? est then Some (Break w)
         else
           let child :=
             childOf rng (Editor.parameters config) parentMatrix length
               radius i w in
           match
             Editor.collectBranchData rng fuel config est (level + 1)
               (fst (fst (fst child))) (snd (fst (fst child)))
               (snd (fst child)) (snd child)
           with
           | Some w' => Some (Next w')
           | None => None
           end)
      (push_branch
         (mkEmitted level length radius
            (branchMatrix (Editor.parameters config) parentMatrix length
               radius)) w).
Proof. reflexivity. Qed.

Lemma leaf_limit_reached (est : Z) (w : World) :
  leaf_limit est w ->
  reachedLimit est w = true /\
  (array_length (leafMatricesArray w) <? est - 1) = false.
Proof.
  unfold leaf_limit, reachedLimit. intros H. split.
  - apply orb_true_iff. right. rewrite Z.geb_leb. apply Z.leb_le. lia.
  - apply Z.ltb_ge. lia.
Qed.

(** Once the limit of the leaves is reached, a call of the editor pushes
    nothing. *)
Lemma Editor_collectBranchData_stuck (rng : nat -> Q) (fuel : nat)
    (config : Editor.EditorConfig) (est level : Z) (parentMatrix : Matrix4)
    (length radius : Q) (w : World) :
  leaf_limit est w ->
  Editor.collectBranchData rng (S fuel) config est level parentMatrix
    length radius w = Some w.
Proof.
  intros H. apply leaf_limit_reached in H. destruct H as [Hlimit Hroom].
  rewrite Editor_collectBranchData_step, Hlimit, Hroom, orb_true_r.
  destruct (_ && _); reflexivity.
Qed.

Lemma collectBranchDataRecursive_stuck (rng : nat -> Q) (fuel : nat)
    (config : Config) (est level : Z) (parentMatrix : Matrix4)
    (length radius : Q) (w : World) :
  leaf_limit est w ->
  collectBranchDataRecursive rng (S fuel) config est level parentMatrix
    length radius w = Some w.
Proof.
  intros H. apply leaf_limit_reached in H. destruct H as [Hlimit Hroom].
  rewrite collectBranchDataRecursive_step, Hlimit, Hroom, orb_true_r.
  destruct (_ && _); reflexivity.
Qed.

Section EditorLoop.

Variable rng : nat -> Q.
Variable fuel : nat.
Variable config : Editor.EditorConfig.
Variable est level : Z.
Variable parentMatrix : Matrix4.
Variable length radius : Q.

(** Once the limit of the leaves is reached, the loop of the editor goes
    on without a push, and the loop of the module stops. *)
Lemma editor_loop_stuck (n : nat) :
  forall i w w',
    leaf_limit est w ->
    for_break n i
      (editor_body rng fuel config est level parentMatrix length radius) w
    = Some w' ->
    branchMatricesArray w' = branchMatricesArray w /\
    leafMatricesArray w' = leafMatricesArray w.
Proof.
  induction n as [|n IH]; intros i w w' Hlimit Hrun; cbn [for_break] in Hrun.
  - injection Hrun as <-. auto.
  - unfold editor_body in Hrun at 1. cbv zeta in Hrun.
    destruct (array_length (branchMatricesArray w) >=? est);
      [injection Hrun as <-; auto|].
    destruct fuel as [|fuel']; [discriminate|].
    rewrite Editor_collectBranchData_stuck in Hrun by exact Hlimit.
    apply IH in Hrun; [|exact Hlimit]. exact Hrun.
Qed.

Lemma module_loop_stuck (n : nat) (i : Z) (w : World) :
  leaf_limit est w ->
  for_break n i
    (module_body rng fuel config est level parentMatrix length radius) w
  = Some w.
Proof.
  intros Hlimit. destruct n as [|n]; [reflexivity|].
  cbn [for_break]. unfold module_body.
  apply leaf_limit_reached in Hlimit. destruct Hlimit as [-> _]. reflexivity.
Qed.

End EditorLoop.

Lemma same_arrays_refl (est : Z) (w : World) : same_arrays est w w.
Proof. left. reflexivity. Qed.

Lemma Editor_collectBranchData_stuck_inv (rng : nat -> Q) (fuel : nat)
    (config : Editor.EditorConfig) (est level : Z) (parentMatrix : Matrix4)
    (length radius : Q) (w w' : World) :
  leaf_limit est w ->
  Editor.collectBranchData rng fuel config est level parentMatrix
    length radius w = Some w' ->
  w' = w.
Proof.
  intros Hlimit Hrun. destruct fuel as [|fuel]; [discriminate|].
  rewrite Editor_collectBranchData_stuck in Hrun by exact Hlimit.
  injection Hrun as <-. reflexivity.
Qed.

(** The recursion of the editor and the recursion of the generator module,
    started in the same state with the same arguments, budget and draws,
    end with the same arrays. *)
Lemma Editor_collectBranchData_simulation (rng : nat -> Q)
    (config : Editor.EditorConfig) (est : Z) (fuel : nat) :
  forall level parentMatrix length radius w w1,
    Editor.collectBranchData rng fuel config est level parentMatrix
      length radius w = Some w1 ->
    exists w2,
      collectBranchDataRecursive rng fuel (Editor.parameters config) est
        level parentMatrix length radius w = Some w2 /\
      same_arrays est w1 w2.
Proof.
  induction fuel as [|fuel IH];
    intros level parentMatrix length radius w w1 Hrun; [discriminate|].
  rewrite Editor_collectBranchData_step in Hrun.
  rewrite collectBranchDataRecursive_step.
  destruct (isTerminal (Editor.parameters config) level length radius
            || reachedLimit est w).
  { exists w1. split; [exact Hrun|apply same_arrays_refl]. }
  assert (Hloop : forall n i s1 s2,
            same_arrays est s1 s2 ->
            for_break n i
              (editor_body rng fuel config est level parentMatrix length radius)
              s1 = Some w1 ->
            exists w2,
              for_break n i
                (module_body rng fuel config est level parentMatrix length
                   radius) s2 = Some w2 /\
              same_arrays est w1 w2).
  { clear Hrun w.
    induction n as [|n IHn]; intros i s1 s2 Hsame Hrun.
    - injection Hrun as <-. exists s2. split; [reflexivity|exact Hsame].
    - destruct Hsame as [<- | (Hb & Hl & Hlim)].
      + cbn [for_break] in Hrun |- *.
        unfold editor_body in Hrun at 1. unfold module_body at 1.
        cbv zeta in Hrun |- *. unfold reachedLimit.
        destruct (array_length (branchMatricesArray s1) >=? est);
          cbn [orb].
        { injection Hrun as <-. exists s1. split; [reflexivity|].
          apply same_arrays_refl. }
        destruct (array_length (leafMatricesArray s1) >=? est - 1) eqn:Hleaf.
        * exists s1. split; [reflexivity|].
          assert (Hlim : leaf_limit est s1).
          { unfold leaf_limit. rewrite Z.geb_leb in Hleaf.
            apply Z.leb_le in Hleaf. exact Hleaf. }
          destruct (Editor.collectBranchData rng fuel config est (level + 1)
                      _ _ _ (snd (childOf rng (Editor.parameters config)
                                    parentMatrix length radius i s1)))
            as [s|] eqn:Hchild; [|discriminate].
          apply Editor_collectBranchData_stuck_inv in Hchild; [|exact Hlim].
          subst s.
          apply editor_loop_stuck in Hrun; [|exact Hlim].
          destruct Hrun as [Hb Hl]. right.
          unfold leaf_limit. rewrite Hl. auto.
        * destruct (Editor.collectBranchData rng fuel config est (level + 1)
                      _ _ _ (snd (childOf rng (Editor.parameters config)
                                    parentMatrix length radius i s1)))
            as [s|] eqn:Hchild; [|discriminate].
          apply IH in Hchild. destruct Hchild as (s' & -> & Hsame).
          eapply IHn; [exact Hsame|exact Hrun].
      + exists s2. split.
        * apply module_loop_stuck. unfold leaf_limit. rewrite <- Hl. exact Hlim.
        * apply editor_loop_stuck in Hrun; [|exact Hlim].
          destruct Hrun as [Hb' Hl']. right.
          unfold leaf_limit. rewrite Hb', Hl'. auto. }
  eapply Hloop; [apply same_arrays_refl|exact Hrun].
Qed.

(** A call of the editor at [level] returns when [fuel] exceeds the number
    of levels that remain below [maxDepth]. *)
Lemma Editor_collectBranchData_returns (rng : nat -> Q)
    (config : Editor.EditorConfig) (est : Z) (fuel : nat) :
  forall level parentMatrix length radius w,
    (Z.to_nat (Editor.maxDepth config - level) < fuel)%nat ->
    exists w',
      Editor.collectBranchData rng fuel config est level parentMatrix
        length radius w = Some w'.
Proof.
  induction fuel as [|fuel IH]; intros level parentMatrix length radius w Hfuel;
    [lia|].
  rewrite Editor_collectBranchData_step.
  destruct (isTerminal (Editor.parameters config) level length radius)
    eqn:Hterm; cbn [orb andb].
  - destruct (level >? 0); [|eauto].
    destruct (array_length (leafMatricesArray w) <? est - 1); eauto.
  - destruct (reachedLimit est w); [eauto|].
    apply for_break_returns. intros i w0. cbv beta zeta.
    destruct (array_length (branchMatricesArray w0) >=? est); [eauto|].
    apply isTerminal_false in Hterm. destruct Hterm as [Hlevel _].
    cbn [Editor.parameters maxDepth nullish] in Hlevel.
    edestruct IH as [w' ->]; [|eauto]. lia.
Qed.

(** X12. The recursion of the editor ([collectBranchData] in script.js)
    and the recursion of the generator module
    ([collectBranchDataRecursive]) push the same branch and leaf matrices
    when they start in the same state with the same parameters, budget
    and draws: that the loop of the editor tests the limit of the branches
    only makes no difference to the arrays. *)
Theorem editor_and_module_push_the_same (rng : nat -> Q)
    (config : Editor.EditorConfig) (est : Z) (fuel : nat) (level : Z)
    (parentMatrix : Matrix4) (length radius : Q) (w : World) :
  (Z.to_nat (Editor.maxDepth config - level) < fuel)%nat ->
  exists w1 w2,
    Editor.collectBranchData rng fuel config est level parentMatrix
      length radius w = Some w1 /\
    collectBranchDataRecursive rng fuel (Editor.parameters config) est level
      parentMatrix length radius w = Some w2 /\
    branchMatricesArray w1 = branchMatricesArray w2 /\
    leafMatricesArray w1 = leafMatricesArray w2.
Proof.
  intros Hfuel.
  destruct (Editor_collectBranchData_returns rng config est fuel level
              parentMatrix length radius w Hfuel) as [w1 Hrun].
  destruct (Editor_collectBranchData_simulation _ _ _ _ _ _ _ _ _ _ Hrun)
    as (w2 & Hrun2 & Hsame).
  exists w1, w2. split; [exact Hrun|]. split; [exact Hrun2|].
  destruct Hsame as [<- | (Hb & Hl & _)]; auto.
Qed.

Lemma editor_and_module_push_the_same_witness :
  exists w1 w2,
    Editor.collectBranchData pinned 6 Editor.config 10 0 newMatrix4 10 (7 # 10)
      (mkWorld [] [] 0) = Some w1 /\
    collectBranchDataRecursive pinned 6 (Editor.parameters Editor.config) 10 0
      newMatrix4 10 (7 # 10) (mkWorld [] [] 0) = Some w2 /\
    branchMatricesArray w1 = branchMatricesArray w2 /\
    leafMatricesArray w1 = leafMatricesArray w2.
Proof.
  apply (editor_and_module_push_the_same pinned Editor.config 10 6 0
           newMatrix4 10 (7 # 10) (mkWorld [] [] 0)).
  vm_compute. lia.
Defined.

(** * The editor: estimate, generation and saved files *)

Lemma Editor_estimateMaxInstances_count (config : Editor.EditorConfig) :
  Editor.estimateMaxInstances config =
  Qceiling (inject_Z (geometric_count (Editor.numBranches config)
                        (Editor.maxDepth config))
            * Editor.maxInstanceEstimateFactor config * (3 # 2)).
Proof.
  unfold Editor.estimateMaxInstances, geometric_count.
  change 0 with (Z.of_nat 0) at 1. rewrite for_upto_sum. reflexivity.
Qed.

(** X13. The estimator of the editor reads [maxDepth] and [numBranches]
    as they are: with the factor 1.5 it returns
    [ceil((sum of numBranches ^ i for i = 0 .. maxDepth) * 1.5 * 1.5)]
    for every depth and every number of branches, 0 included, and it
    agrees with the estimator of the generator module on the saved
    parameters when both fields are not 0. *)
Theorem editor_estimate (config : Editor.EditorConfig) :
  Editor.maxInstanceEstimateFactor config = 3 # 2 ->
  Editor.estimateMaxInstances config =
    spec_estimate (Editor.numBranches config) (Editor.maxDepth config) /\
  (Editor.maxDepth config <> 0 -> Editor.numBranches config <> 0 ->
   estimateMaxInstances (Editor.parameters config) default_estimateFactor =
   Editor.estimateMaxInstances config).
Proof.
  intros Hfactor. rewrite Editor_estimateMaxInstances_count, Hfactor.
  split; [reflexivity|].
  intros Hd Hb.
  rewrite (estimateMaxInstances_spec (Editor.parameters config)
             (Editor.maxDepth config) (Editor.numBranches config));
    auto.
Qed.

Lemma editor_estimate_witness :
  Editor.estimateMaxInstances Editor.config =
    spec_estimate (Editor.numBranches Editor.config)
      (Editor.maxDepth Editor.config) /\
  (Editor.maxDepth Editor.config <> 0 -> Editor.numBranches Editor.config <> 0 ->
   estimateMaxInstances (Editor.parameters Editor.config)
     default_estimateFactor =
   Editor.estimateMaxInstances Editor.config).
Proof. apply (editor_estimate Editor.config). reflexivity. Defined.

(** X14. The estimate of the editor does not decrease when [maxDepth]
    grows, from any depth, 0 and negative depths included, for a fixed
    [numBranches >= 0] and a fixed factor that is not negative. *)
Theorem editor_estimate_monotone (c1 c2 : Editor.EditorConfig) :
  Editor.numBranches c1 = Editor.numBranches c2 ->
  Editor.maxInstanceEstimateFactor c1 = Editor.maxInstanceEstimateFactor c2 ->
  0 <= Editor.numBranches c1 ->
  (0 <= Editor.maxInstanceEstimateFactor c1)%Q ->
  Editor.maxDepth c1 <= Editor.maxDepth c2 ->
  Editor.estimateMaxInstances c1 <= Editor.estimateMaxInstances c2.
Proof.
  intros Hb Hf Hb0 Hf0 Hd.
  unfold Editor.estimateMaxInstances. rewrite <- Hb, <- Hf.
  apply estimate_scale_mono; [exact Hf0|].
  apply for_upto_mono; lia.
Qed.

Lemma editor_estimate_monotone_witness :
  Editor.estimateMaxInstances
    (Editor.mkEditorConfig 0 10 (7 # 10) (7 # 10) 30 (6 # 10) (1 # 10) 2 10 10
       (68 # 100) "5c4033" (3 # 2) (1 # 2))
  <= Editor.estimateMaxInstances Editor.config.
Proof.
  apply (editor_estimate_monotone
           (Editor.mkEditorConfig 0 10 (7 # 10) (7 # 10) 30 (6 # 10) (1 # 10)
              2 10 10 (68 # 100) "5c4033" (3 # 2) (1 # 2))
           Editor.config).
  - reflexivity.
  - reflexivity.
  - vm_compute. congruence.
  - vm_compute. congruence.
  - vm_compute. congruence.
Defined.

Lemma Editor_estimateMaxInstances_nonneg (config : Editor.EditorConfig) :
  0 <= Editor.numBranches config ->
  (0 <= Editor.maxInstanceEstimateFactor config)%Q ->
  0 <= Editor.estimateMaxInstances config.
Proof.
  intros Hb Hf. unfold Editor.estimateMaxInstances.
  apply Z.le_trans
    with (Qceiling (inject_Z 0 * Editor.maxInstanceEstimateFactor config
                    * (3 # 2))).
  - rewrite Qmult_0_l, Qmult_0_l. reflexivity.
  - apply estimate_scale_mono; [exact Hf|].
    apply for_upto_nonneg; [exact Hb|lia].
Qed.

Lemma slice0_all {A : Type} (a : list A) :
  Editor.slice0 a (array_length a) = a.
Proof.
  unfold Editor.slice0, array_length.
  replace (Z.of_nat (List.length a) <? 0) with false
    by (symmetry; apply Z.ltb_ge; lia).
  rewrite Nat2Z.id. apply firstn_all.
Qed.

(** The generation of the editor, from the final state of its recursion. *)
Lemma Editor_generateTree_run (rng : nat -> Q) (fuel : nat)
    (config : Editor.EditorConfig) :
  (S (Z.to_nat (Editor.maxDepth config)) <= fuel)%nat ->
  exists w1 w2,
    Editor.collectBranchData rng fuel config
      (Editor.estimateMaxInstances config) 0 newMatrix4
      (Editor.initialLength config) (Editor.initialRadius config)
      (mkWorld [] [] 0) = Some w1 /\
    collectBranchDataRecursive rng fuel (Editor.parameters config)
      (Editor.estimateMaxInstances config) 0 newMatrix4
      (Editor.initialLength config) (Editor.initialRadius config)
      (mkWorld [] [] 0) = Some w2 /\
    branchMatricesArray w1 = branchMatricesArray w2 /\
    leafMatricesArray w1 = leafMatricesArray w2.
Proof.
  intros Hfuel.
  destruct (Editor_collectBranchData_returns rng config
              (Editor.estimateMaxInstances config) fuel 0 newMatrix4
              (Editor.initialLength config) (Editor.initialRadius config)
              (mkWorld [] [] 0)) as [w1 Hrun].
  { rewrite Z.sub_0_r. lia. }
  destruct (Editor_collectBranchData_simulation _ _ _ _ _ _ _ _ _ _ Hrun)
    as (w2 & Hrun2 & Hsame).
  exists w1, w2. split; [exact Hrun|]. split; [exact Hrun2|].
  destruct Hsame as [<- | (Hb & Hl & _)]; auto.
Qed.

(** A generation of the editor stays within its estimate: the instance
    counts are the lengths of the arrays. *)
Lemma Editor_generateTree_counts (rng : nat -> Q) (fuel : nat)
    (config : Editor.EditorConfig) :
  0 <= Editor.numBranches config ->
  (0 <= Editor.maxInstanceEstimateFactor config)%Q ->
  (S (Z.to_nat (Editor.maxDepth config)) <= fuel)%nat ->
  exists s,
    Editor.generateTree rng fuel config = Some s /\
    Editor.treeInstancedMesh_count s = array_length (Editor.branchMatrices s) /\
    Editor.leafInstancedMesh_count s = array_length (Editor.leafMatrices s).
Proof.
  intros Hb Hf Hfuel.
  destruct (Editor_generateTree_run rng fuel config Hfuel)
    as (w1 & w2 & Hrun1 & Hrun2 & Hbs & Hls).
  pose proof (Editor_estimateMaxInstances_nonneg config Hb Hf) as Hest.
  assert (Hwithin : within_budget (Editor.estimateMaxInstances config) w2).
  { eapply collectBranchDataRecursive_within_budget; [|exact Hrun2].
    split; exact Hest. }
  destruct Hwithin as [Hwb Hwl]. rewrite <- Hbs in Hwb. rewrite <- Hls in Hwl.
  unfold Editor.generateTree. rewrite Hrun1.
  eexists. split; [reflexivity|].
  cbn [Editor.treeInstancedMesh_count Editor.leafInstancedMesh_count
       Editor.branchMatrices Editor.leafMatrices].
  split; apply Z.min_l; assumption.
Qed.

(** X15. With [numBranches >= 0] and a factor that is not negative, a
    generation of the editor never exceeds its estimate: no warning is
    written, the instance counts of the two meshes are the lengths of the
    two arrays, and [saveFullTreeData] then saves every generated matrix. *)
Theorem editor_draws_and_saves_every_matrix (rng : nat -> Q) (fuel : nat)
    (config : Editor.EditorConfig) :
  0 <= Editor.numBranches config ->
  (0 <= Editor.maxInstanceEstimateFactor config)%Q ->
  (S (Z.to_nat (Editor.maxDepth config)) <= fuel)%nat ->
  exists s,
    Editor.generateTree rng fuel config = Some s /\
    Editor.warnings s = [] /\
    Editor.treeInstancedMesh_count s = array_length (Editor.branchMatrices s) /\
    Editor.leafInstancedMesh_count s = array_length (Editor.leafMatrices s) /\
    Editor.data_branchMatrices (Editor.saveFullTreeData config s) =
      map em_matrix (Editor.branchMatrices s) /\
    Editor.data_leafMatrices (Editor.saveFullTreeData config s) =
      map em_matrix (Editor.leafMatrices s).
Proof.
  intros Hb Hf Hfuel.
  destruct (Editor_generateTree_run rng fuel config Hfuel)
    as (w1 & w2 & Hrun1 & Hrun2 & Hbs & Hls).
  pose proof (Editor_estimateMaxInstances_nonneg config Hb Hf) as Hest.
  assert (Hwithin : within_budget (Editor.estimateMaxInstances config) w2).
  { eapply collectBranchDataRecursive_within_budget; [|exact Hrun2].
    split; exact Hest. }
  destruct Hwithin as [Hwb Hwl]. rewrite <- Hbs in Hwb. rewrite <- Hls in Hwl.
  unfold Editor.generateTree. rewrite Hrun1.
  eexists. split; [reflexivity|].
  unfold Editor.saveFullTreeData.
  cbn [Editor.warnings Editor.treeInstancedMesh_count
       Editor.leafInstancedMesh_count Editor.branchMatrices
       Editor.leafMatrices Editor.data_branchMatrices
       Editor.data_leafMatrices].
  replace (array_length (branchMatricesArray w1)
           >? Editor.estimateMaxInstances config) with false
    by (symmetry; rewrite Z.gtb_ltb; apply Z.ltb_ge; lia).
  replace (array_length (leafMatricesArray w1)
           >? Editor.estimateMaxInstances config) with false
    by (symmetry; rewrite Z.gtb_ltb; apply Z.ltb_ge; lia).
  rewrite !Z.min_l by lia. rewrite !slice0_all.
  repeat split.
Qed.

Lemma editor_draws_and_saves_every_matrix_witness :
  exists s,
    Editor.generateTree pinned 6 Editor.config = Some s /\
    Editor.warnings s = [] /\
    Editor.treeInstancedMesh_count s = array_length (Editor.branchMatrices s) /\
    Editor.leafInstancedMesh_count s = array_length (Editor.leafMatrices s) /\
    Editor.data_branchMatrices (Editor.saveFullTreeData Editor.config s) =
      map em_matrix (Editor.branchMatrices s) /\
    Editor.data_leafMatrices (Editor.saveFullTreeData Editor.config s) =
      map em_matrix (Editor.leafMatrices s).
Proof.
  apply (editor_draws_and_saves_every_matrix pinned 6 Editor.config).
  - vm_compute. congruence.
  - vm_compute. congruence.
  - vm_compute. lia.
Defined.




(** * The loaders *)

Lemma array_length_map {A B : Type} (f : A -> B) (a : list A) :
  array_length (map f a) = array_length a.
Proof. unfold array_length. rewrite length_map. reflexivity. Qed.

Lemma firstn_array_length {A : Type} (a : list A) :
  firstn (Z.to_nat (array_length a)) a = a.
Proof. unfold array_length. rewrite Nat2Z.id. apply firstn_all. Qed.

(** X17. A tree saved by the editor is displayed by the tree loader as the
    editor drew it: with [numBranches >= 0] and a factor that is not
    negative, [displayLoadedTree] on the object written by
    [saveFullTreeData] creates no mesh when the editor generated no branch,
    and otherwise a branch mesh with the colour and the taper of the editor
    and the matrices of the branch instances of the editor, in order, and a
    leaf mesh with the matrices of its leaf instances when there is a
    leaf. *)
Theorem tree_loader_displays_the_saved_tree (rng : nat -> Q) (fuel : nat)
    (config : Editor.EditorConfig) :
  0 <= Editor.numBranches config ->
  (0 <= Editor.maxInstanceEstimateFactor config)%Q ->
  (S (Z.to_nat (Editor.maxDepth config)) <= fuel)%nat ->
  exists s,
    Editor.generateTree rng fuel config = Some s /\
    TreeLoader.displayLoadedTree (Editor.saveFullTreeData config s) =
    if array_length (Editor.branchMatrices s) =? 0 then mkScene None None
    else
      mkScene
        (Some (mkBranchMesh (ColorStyle ("#" ++ Editor.branchColor config))
                 ((1 # 2) * Editor.taperFactor config)%Q
                 (fst (editor_instances s))))
        (if array_length (Editor.leafMatrices s) >? 0
         then Some (mkLeafMesh (ColorStyle "#228b22")
                      (snd (editor_instances s)))
         else None).
Proof.
  intros Hb Hf Hfuel.
  destruct (Editor_generateTree_counts rng fuel config Hb Hf Hfuel)
    as (s & Hgen & Hcb & Hcl).
  exists s. split; [exact Hgen|].
  unfold TreeLoader.displayLoadedTree, editor_instances, Editor.saveFullTreeData.
  cbn [Editor.data_branchMatrices Editor.data_leafMatrices
       Editor.data_branchColor Editor.data_leafColor Editor.data_taperFactor].
  rewrite Hcb, Hcl, !slice0_all, !array_length_map, !firstn_array_length.
  reflexivity.
Qed.

Lemma tree_loader_displays_the_saved_tree_witness :
  exists s,
    Editor.generateTree pinned 6 Editor.config = Some s /\
    TreeLoader.displayLoadedTree (Editor.saveFullTreeData Editor.config s) =
    if array_length (Editor.branchMatrices s) =? 0 then mkScene None None
    else
      mkScene
        (Some (mkBranchMesh
                 (ColorStyle ("#" ++ Editor.branchColor Editor.config))
                 ((1 # 2) * Editor.taperFactor Editor.config)%Q
                 (fst (editor_instances s))))
        (if array_length (Editor.leafMatrices s) >? 0
         then Some (mkLeafMesh (ColorStyle "#228b22")
                      (snd (editor_instances s)))
         else None).
Proof.
  apply (tree_loader_displays_the_saved_tree pinned 6 Editor.config).
  - vm_compute. congruence.
  - vm_compute. congruence.
  - vm_compute. lia.
Defined.


